(** * conda/trust/signature_verification.py: the trust chain of [_SignatureVerification]

    A shallow embedding of the class [_SignatureVerification] and the
    properties of its four entry points: the memoized properties [enabled],
    [trusted_root] and [key_mgr], and [__call__].

    What is modelled, and how:
    - documents are JSON values as [json.load] returns them ([json]);
      JSON numbers are integers here: a float such as [1.5], which
      [json.load] can return and to which [+ 1] applies, is outside the
      model;
    - the artifact verification directory [context.av_data_dir] is a finite
      map from base names to documents, or missing altogether;
      [load_metadata_from_file] reads a name of that map and
      [write_metadata_to_file] stores one (it fails when the directory is
      missing);
    - the signing server is an oracle [session_get]: the answer to the n-th
      request of the process for a file name, either an exception of
      [session.get] or a response with a status and a body;
    - [verify_root], [verify_delegation] and [wrap_as_signable] of
      conda-content-trust, and the constants [INITIAL_TRUST_ROOT] and
      [KEY_MGR_FILE] of [conda.trust.constants], are parameters ([env]);
    - every modelled exception is a subclass of [Exception];
    - paths under the directory are their base names: they share the
      directory as a prefix, so [sorted] orders them as it orders the names;
    - the [session] property, the request headers, the time-outs and the
      warning filter of [_fetch_channel_signing_data] leave no mark on the
      results and are not modelled;
    - [lru_cache] on a property of the singleton is one memo cell per
      property, filled when the body returns and never when it raises; it
      takes no lock between its lookup and its store, so a caller whose
      lookup missed runs the body whatever the cell holds by then;
    - [makedirs] of line 64 is taken to succeed;
    - the [while] loop of [trusted_root] takes fuel: one unit per iteration. *)

From stdpp Require Import base gmap strings pretty list.
From Stdlib Require Import ZArith String Ascii.

Local Set Warnings "-register-all".
Open Scope string_scope.
Open Scope Z_scope.

(** ** Python values *)

Inductive json : Type :=
| JNull
| JBool (b : bool)
| JInt (z : Z)
| JStr (s : string)
| JList (l : list json)
| JObj (kv : list (string * json)).

(** The exceptions the code names or can meet.  [HTTPError] is the one the
    module imports from the connection gateway, raised by [raise_for_status];
    [ConnectionError] is the name the [except] clause of [key_mgr] uses, which
    the module does not import, hence the builtin; [OtherError] stands for
    every other subclass of [Exception] (an error of the HTTP library that is
    neither of the two, a verification error of conda-content-trust that is
    no [SignatureError]). *)
Inductive exn : Type :=
| HTTPError (status_code : Z)
| ConnectionError
| SignatureError
| ValueError
| KeyError
| TypeError
| OSError
| OtherError (name : string).

Inductive result (A : Type) : Type :=
| Ok (a : A)
| Err (e : exn).
Arguments Ok {A} a.
Arguments Err {A} e.

(** [bool(v)] *)
Definition truthy (v : json) : bool :=
  match v with
  | JNull => false
  | JBool b => b
  | JInt z => negb (z =? 0)
  | JStr s => negb (String.eqb s "")
  | JList l => match l with [] => false | _ => true end
  | JObj kv => match kv with [] => false | _ => true end
  end.

Fixpoint assoc (k : string) (kv : list (string * json)) : option json :=
  match kv with
  | [] => None
  | (k', v) :: kv' => if String.eqb k k' then Some v else assoc k kv'
  end.

Fixpoint assoc_set (k : string) (v : json) (kv : list (string * json))
  : list (string * json) :=
  match kv with
  | [] => [(k, v)]
  | (k', v') :: kv' =>
      if String.eqb k k' then (k, v) :: kv' else (k', v') :: assoc_set k v kv'
  end.

(** [d[k]] for a string key [k] *)
Definition getitem (d : json) (k : string) : result json :=
  match d with
  | JObj kv => match assoc k kv with Some v => Ok v | None => Err KeyError end
  | _ => Err TypeError
  end.

(** [d[k] = v] for a string key [k] *)
Definition setitem (d : json) (k : string) (v : json) : result json :=
  match d with
  | JObj kv => Ok (JObj (assoc_set k v kv))
  | _ => Err TypeError
  end.

(** The integer a value counts as in [v + 1] ([True] is 1). *)
Definition as_int (v : json) : option Z :=
  match v with
  | JInt z => Some z
  | JBool b => Some (Z.b2z b)
  | _ => None
  end.

(** [trusted['signed']['version'] + 1] *)
Definition next_version (trusted : json) : result Z :=
  match getitem trusted "signed" with
  | Err e => Err e
  | Ok signed =>
      match getitem signed "version" with
      | Err e => Err e
      | Ok v => match as_int v with Some z => Ok (z + 1) | None => Err TypeError end
      end
  end.

(** [f"{v}.root.json"] *)
Definition root_fname (v : Z) : string := pretty v +:+ ".root.json".

(** ** File names: [glob], [sorted], [int] *)

Definition is_digit (c : ascii) : bool :=
  ((48 <=? nat_of_ascii c) && (nat_of_ascii c <=? 57))%nat.

Definition digit_val (c : ascii) : Z := Z.of_nat (nat_of_ascii c) - 48.

(** The ASCII white space [int] strips from a [str]: tab, line feed,
    vertical tab, form feed, carriage return and space. *)
Definition is_space (c : ascii) : bool :=
  let n := nat_of_ascii c in
  (((9 <=? n) && (n <=? 13)) || (n =? 32))%nat.

Fixpoint all_space (s : string) : bool :=
  match s with
  | EmptyString => true
  | String c r => is_space c && all_space r
  end.

Fixpoint lstrip (s : string) : string :=
  match s with
  | EmptyString => EmptyString
  | String c r => if is_space c then lstrip r else s
  end.

Inductive prev_char : Type := PNone | PDigit | PUnderscore.

(** The digits of a decimal literal: single underscores between digits, then
    white space up to the end. *)
Fixpoint int_digits (prev : prev_char) (acc : Z) (s : string) : option Z :=
  match s with
  | EmptyString => match prev with PDigit => Some acc | _ => None end
  | String c r =>
      if is_digit c then int_digits PDigit (10 * acc + digit_val c) r
      else if Ascii.eqb c "_" then
        match prev with PDigit => int_digits PUnderscore acc r | _ => None end
      else if is_space c then
        match prev with
        | PDigit => if all_space r then Some acc else None
        | _ => None
        end
      else None
  end.

(** [int(s)] on a string of ASCII characters; [None] is [ValueError].  (The
    decimal digits of other scripts, which [int] reads too, are not
    characters of this model.) *)
Definition py_int (s : string) : option Z :=
  match lstrip s with
  | String "+" r => int_digits PNone 0 r
  | String "-" r => Z.opp <$> int_digits PNone 0 r
  | r => int_digits PNone 0 r
  end.

(** [s.split(".")[0]] *)
Fixpoint split_dot_head (s : string) : string :=
  match s with
  | EmptyString => EmptyString
  | String c r => if Ascii.eqb c "." then EmptyString else String c (split_dot_head r)
  end.

Definition ends_with (suffix s : string) : bool :=
  (String.length suffix <=? String.length s)%nat &&
  String.eqb
    (substring (String.length s - String.length suffix) (String.length suffix) s)
    suffix.

(** A base name matches the pattern ["[0-9]*.root.json"]. *)
Definition glob_match (name : string) : bool :=
  match name with
  | EmptyString => false
  | String c r => is_digit c && ends_with ".root.json" r
  end.

Fixpoint insert_desc (x : string) (l : list string) : list string :=
  match l with
  | [] => [x]
  | y :: l' => if String.leb y x then x :: l else y :: insert_desc x l'
  end.

(** [sorted(l, reverse=True)]: strings compare by code point. *)
Definition sorted_reverse (l : list string) : list string :=
  foldr insert_desc [] l.

(** The [for] loop over the sorted paths: the first whose prefix is an int. *)
Fixpoint first_int_prefixed (paths : list string) : option string :=
  match paths with
  | [] => None
  | p :: rest =>
      match py_int (split_dot_head p) with
      | Some _ => Some p
      | None => first_int_prefixed rest
      end
  end.

(** ** The world: configuration, collaborators, state *)

Inductive http_result : Type :=
| HttpRaise (e : exn)
| HttpResponse (status : Z) (body : option json).

Record env : Type := mkEnv {
  extra_safety_checks : bool;
  signing_metadata_url_base : option string;
  conda_content_trust_importable : bool;
  INITIAL_TRUST_ROOT : json;
  KEY_MGR_FILE : string;
  session_get : nat -> string -> http_result;
  verify_root : json -> json -> option exn;
  verify_delegation : string -> json -> json -> option exn;
  wrap_as_signable : gmap string json -> result json
}.

Inductive level : Type := Debug | Info | Warn | Error.

Inductive logmsg : Type :=
| Msg (text : string)
| MsgExn (e : exn).

Inductive event : Type :=
| EvGlob
| EvLoad (name : string)
| EvGet (name : string)
| EvWrite (name : string) (doc : json)
| EvMakedirs
| EvLog (lvl : level) (msg : logmsg).

Record state : Type := mkState {
  av_dir : option (gmap string json);
  requests : nat;
  trace : list event;
  memo_enabled : option bool;
  memo_trusted_root : option json;
  memo_key_mgr : option json
}.

Inductive outcome (A : Type) : Type :=
| Return (a : A) (s : state)
| Raise (e : exn) (s : state)
| OutOfFuel.
Arguments Return {A} a s.
Arguments Raise {A} e s.
Arguments OutOfFuel {A}.

Definition emit (e : event) (s : state) : state :=
  mkState (av_dir s) (requests s) (trace s ++ [e])
          (memo_enabled s) (memo_trusted_root s) (memo_key_mgr s).

Definition log (lvl : level) (m : logmsg) (s : state) : state :=
  emit (EvLog lvl m) s.

Definition set_av_dir (d : option (gmap string json)) (s : state) : state :=
  mkState d (requests s) (trace s)
          (memo_enabled s) (memo_trusted_root s) (memo_key_mgr s).

Definition count_request (s : state) : state :=
  mkState (av_dir s) (S (requests s)) (trace s)
          (memo_enabled s) (memo_trusted_root s) (memo_key_mgr s).

Definition set_memo_enabled (b : bool) (s : state) : state :=
  mkState (av_dir s) (requests s) (trace s)
          (Some b) (memo_trusted_root s) (memo_key_mgr s).

Definition set_memo_trusted_root (d : json) (s : state) : state :=
  mkState (av_dir s) (requests s) (trace s)
          (memo_enabled s) (Some d) (memo_key_mgr s).

Definition set_memo_key_mgr (d : json) (s : state) : state :=
  mkState (av_dir s) (requests s) (trace s)
          (memo_enabled s) (memo_trusted_root s) (Some d).

(** ** The local store *)

Definition lookup_file (name : string) (s : state) : option json :=
  match av_dir s with
  | Some files => files !! name
  | None => None
  end.

(** [exists(join(context.av_data_dir, name))] *)
Definition file_exists (name : string) (s : state) : bool :=
  match lookup_file name s with Some _ => true | None => false end.

Definition load_metadata_from_file (name : string) (s : state)
  : result json * state :=
  match lookup_file name s with
  | Some d => (Ok d, emit (EvLoad name) s)
  | None => (Err OSError, s)
  end.

Definition write_metadata_to_file (d : json) (name : string) (s : state)
  : result unit * state :=
  match av_dir s with
  | Some files => (Ok tt, emit (EvWrite name d) (set_av_dir (Some (<[name := d]> files)) s))
  | None => (Err OSError, s)
  end.

(** [glob(join(context.av_data_dir, "[0-9]*.root.json"))], as base names *)
Definition glob_root_json (s : state) : list string :=
  match av_dir s with
  | Some files => filter (fun n => Is_true (glob_match n)) (map_to_list files).*1
  | None => []
  end.

(** ** [_fetch_channel_signing_data] *)

(** [resp.raise_for_status()] *)
Definition raise_for_status (status : Z) : option exn :=
  if (400 <=? status) && (status <? 600) then Some (HTTPError status) else None.

(** What the n-th request of the process yields for [filename]. *)
Definition fetched (E : env) (n : nat) (filename : string) : result json :=
  match session_get E n filename with
  | HttpRaise e => Err e
  | HttpResponse status body =>
      match raise_for_status status with
      | Some e => Err e
      | None =>
          match body with
          | Some doc => Ok doc
          | None => Err ValueError
          end
      end
  end.

Definition _fetch_channel_signing_data (E : env) (filename : string) (s : state)
  : result json * state :=
  (fetched E (requests s) filename, emit (EvGet filename) (count_request s)).

(** ** [trusted_root] *)

(** The two messages of the first phase; a path is printed as its base
    name, and the directory is left out of the second. *)
Definition loading_msg (name : string) : logmsg :=
  Msg ("Loading root metadata from " +:+ name +:+ ".").

Definition no_cache_msg : logmsg :=
  Msg "No root metadata. Using built-in root metadata.".

(** Lines 86-105: the document the refresh starts from. *)
Definition load_current (E : env) (s : state) : outcome json :=
  let s0 := emit EvGlob s in
  match first_int_prefixed (sorted_reverse (glob_root_json s0)) with
  | Some name =>
      let s1 := log Info (loading_msg name) s0 in
      match load_metadata_from_file name s1 with
      | (Ok d, s2) => Return d s2
      | (Err e, s2) => Raise e s2
      end
  | None =>
      Return (INITIAL_TRUST_ROOT E) (log Debug no_cache_msg s0)
  end.

(** The two [except] clauses of the refresh loop: both end the loop; a 404
    is not logged. *)
Definition refresh_stop (e : exn) (s : state) : state :=
  match e with
  | HTTPError status => if status =? 404 then s else log Error (MsgExn e) s
  | _ => log Error (MsgExn e) s
  end.

(** Lines 108-137: the [while more_signatures] loop. *)
Fixpoint refresh (E : env) (fuel : nat) (trusted : json) (s : state)
  : outcome json :=
  match fuel with
  | O => OutOfFuel
  | S fuel' =>
      match next_version trusted with
      | Err e => Raise e s
      | Ok v =>
          let fname := root_fname v in
          match _fetch_channel_signing_data E fname s with
          | (Err e, s1) => Return trusted (refresh_stop e s1)
          | (Ok untrusted, s1) =>
              match verify_root E trusted untrusted with
              | Some e => Return trusted (refresh_stop e s1)
              | None =>
                  match write_metadata_to_file untrusted fname s1 with
                  | (Err e, s2) => Raise e s2
                  | (Ok _, s2) => refresh E fuel' untrusted s2
                  end
              end
          end
      end
  end.

Definition trusted_root_body (E : env) (fuel : nat) (s : state) : outcome json :=
  match load_current E s with
  | Return trusted s1 => refresh E fuel trusted s1
  | o => o
  end.

(** The property with its [lru_cache]. *)
Definition trusted_root (E : env) (fuel : nat) (s : state) : outcome json :=
  match memo_trusted_root s with
  | Some d => Return d s
  | None =>
      match trusted_root_body E fuel s with
      | Return d s' => Return d (set_memo_trusted_root d s')
      | o => o
      end
  end.

(** ** [key_mgr] *)

(** [except (ConnectionError, HTTPError)] *)
Definition is_connection_or_http_error (e : exn) : bool :=
  match e with
  | HTTPError _ | ConnectionError => true
  | _ => false
  end.

(** Lines 167-171: fall back to the copy on disk. *)
Definition key_mgr_fallback (E : env) (trusted : json) (s : state) : outcome json :=
  if negb (truthy trusted) && file_exists (KEY_MGR_FILE E) s then
    match load_metadata_from_file (KEY_MGR_FILE E) s with
    | (Ok d, s') => Return d s'
    | (Err e, s') => Raise e s'
    end
  else Return trusted s.

(** The two [except] clauses of [key_mgr]: warn and go on with
    [trusted = None], or re-raise. *)
Definition key_mgr_except (E : env) (e : exn) (s : state) : outcome json :=
  if is_connection_or_http_error e
  then key_mgr_fallback E JNull (log Warn (MsgExn e) s)
  else Raise e s.

Definition key_mgr_body (E : env) (fuel : nat) (s : state) : outcome json :=
  let fname := KEY_MGR_FILE E in
  match _fetch_channel_signing_data E fname s with
  | (Err e, s1) => key_mgr_except E e s1
  | (Ok untrusted, s1) =>
      match trusted_root E fuel s1 with
      | OutOfFuel => OutOfFuel
      | Raise e s2 => key_mgr_except E e s2
      | Return root s2 =>
          match verify_delegation E "key_mgr" untrusted root with
          | Some e => key_mgr_except E e s2
          | None =>
              match write_metadata_to_file untrusted fname s2 with
              | (Err e, s3) => Raise e s3
              | (Ok _, s3) => key_mgr_fallback E untrusted s3
              end
          end
      end
  end.

Definition key_mgr (E : env) (fuel : nat) (s : state) : outcome json :=
  match memo_key_mgr s with
  | Some d => Return d s
  | None =>
      match key_mgr_body E fuel s with
      | Return d s' => Return d (set_memo_key_mgr d s')
      | o => o
      end
  end.

(** ** [enabled] *)

(** [v is None] *)
Definition is_None (v : json) : bool :=
  match v with JNull => true | _ => false end.

(** The truth value of [context.signing_metadata_url_base]. *)
Definition url_base_defined (E : env) : bool :=
  match signing_metadata_url_base E with
  | Some u => negb (String.eqb u "")
  | None => false
  end.

(** Lines 61-64, on the path where [makedirs] succeeds.  (Line 64 stands in
    no [try]: an [OSError] of [makedirs] would leave [enabled] as an
    exception; that path is not part of this model.) *)
Definition ensure_av_data_dir (s : state) : state :=
  match av_dir s with
  | Some _ => s
  | None =>
      emit EvMakedirs
        (set_av_dir (Some ∅)
           (log Info (Msg "creating directory for artifact verification metadata") s))
  end.

(** The body of [enabled]; [self.trusted_root] and [self.key_mgr] are the two
    attributes it reads from the instance. *)
Definition enabled_body (E : env)
    (self_trusted_root self_key_mgr : state -> outcome json) (s : state)
  : outcome bool :=
  if negb (extra_safety_checks E) then Return false s
  else if negb (url_base_defined E) then
    Return false
      (log Warn (Msg "metadata signature verification requested, but no metadata URL base has not been specified.") s)
  else if negb (conda_content_trust_importable E) then
    Return false
      (log Warn (Msg "metadata signature verification requested, but `conda-content-trust` is not installed.") s)
  else
    match self_trusted_root (ensure_av_data_dir s) with
    | OutOfFuel => OutOfFuel
    | Raise e s2 => Raise e s2
    | Return root s2 =>
        if is_None root then
          Return false
            (log Warn (Msg "could not find trusted_root data for metadata signature verification") s2)
        else
          match self_key_mgr s2 with
          | OutOfFuel => OutOfFuel
          | Raise e s3 => Raise e s3
          | Return km s3 =>
              if is_None km then
                Return false
                  (log Warn (Msg "could not find key_mgr data for metadata signature verification") s3)
              else Return true s3
          end
    end.

Definition enabled (E : env) (fuel : nat) (s : state) : outcome bool :=
  match memo_enabled s with
  | Some b => Return b s
  | None =>
      match enabled_body E (trusted_root E fuel) (key_mgr E fuel) s with
      | Return b s' => Return b (set_memo_enabled b s')
      | o => o
      end
  end.

(** ** [__call__] *)

Definition status_key : string := "metadata_signature_status".
Definition status_failed : string :=
  "(WARNING: metadata signature verification failed)".
Definition status_trusted : string :=
  "(INFO: package metadata is signed by Anaconda and trusted)".

(** [except SignatureError] of [__call__], then line 247. *)
Definition call_except (info : gmap string json) (fn : string) (e : exn) (s : state)
  : outcome (gmap string json) :=
  match e with
  | SignatureError =>
      Return (<[status_key := JStr status_failed]> info)
             (log Warn (Msg ("invalid signature for " +:+ fn)) s)
  | _ => Raise e s
  end.

(** [info] is mutated in place: the dictionary the call leaves behind is its
    result here. *)
Definition __call__ (E : env) (fuel : nat)
    (info : gmap string json) (fn : string) (signatures : gmap string json)
    (s : state) : outcome (gmap string json) :=
  match enabled E fuel s with
  | OutOfFuel => OutOfFuel
  | Raise e s1 => Raise e s1
  | Return en s1 =>
      match (if en then signatures !! fn else None) with
      | None => Return info s1
      | Some sigs =>
          match wrap_as_signable E info with
          | Err e => Raise e s1
          | Ok wrapped =>
              match setitem wrapped "signatures" sigs with
              | Err e => Raise e s1
              | Ok envelope =>
                  match key_mgr E fuel s1 with
                  | OutOfFuel => OutOfFuel
                  | Raise e s2 => call_except info fn e s2
                  | Return km s2 =>
                      match verify_delegation E "pkg_mgr" envelope km with
                      | Some e => call_except info fn e s2
                      | None =>
                          Return (<[status_key := JStr status_trusted]> info) s2
                      end
                  end
              end
          end
      end
  end.

(** The integer [d['signed']['version']], when there is one. *)
Definition version_of (d : json) : option Z :=
  match getitem d "signed" with
  | Ok signed =>
      match getitem signed "version" with
      | Ok v => as_int v
      | Err _ => None
      end
  | Err _ => None
  end.

(** ** A small world to run the code in *)

(** A root document of version [v]; [signed] tells whether it carries a
    signature. *)
Definition root_doc (v : Z) (signed : bool) : json :=
  JObj [("signed", JObj [("version", JInt v)]);
        ("signatures", JObj (if signed then [("key", JStr "sig")] else []))].

Definition key_mgr_doc (tag : string) : json :=
  JObj [("signed", JObj [("delegations", JStr tag)]);
        ("signatures", JObj [("key", JStr "sig")])].

(** A checker in the place of [verify_root]: the version goes up by one and
    the document is signed. *)
Definition demo_verify_root (trusted untrusted : json) : option exn :=
  match version_of trusted, version_of untrusted with
  | Some v, Some v' =>
      if (v' =? v + 1) && truthy (match getitem untrusted "signatures" with
                                  | Ok sigs => sigs
                                  | Err _ => JNull
                                  end)
      then None else Some SignatureError
  | _, _ => Some TypeError
  end.

(** A checker in the place of [verify_delegation]: the envelope is signed. *)
Definition demo_verify_delegation (role : string) (envelope trusted : json)
  : option exn :=
  match getitem envelope "signatures" with
  | Ok sigs => if truthy sigs then None else Some SignatureError
  | Err e => Some e
  end.

Definition demo_wrap_as_signable (info : gmap string json) : result json :=
  Ok (JObj [("signatures", JObj []); ("signed", JObj (map_to_list info))]).

(** A server with the roots 2 and 3 and the key manager; [forged] makes its
    root 3 unsigned, [down] makes every request end in [ConnectionError]. *)
Definition demo_server (forged down : bool) (n : nat) (name : string) : http_result :=
  if down then HttpRaise ConnectionError
  else if String.eqb name "2.root.json" then HttpResponse 200 (Some (root_doc 2 true))
  else if String.eqb name "3.root.json" then
    HttpResponse 200 (Some (root_doc 3 (negb forged)))
  else if String.eqb name "key_mgr.json" then HttpResponse 200 (Some (key_mgr_doc "k1"))
  else HttpResponse 404 None.

Definition demo_env (forged down : bool) : env :=
  mkEnv true (Some "https://repo.example/sigs") true (root_doc 1 true) "key_mgr.json"
        (demo_server forged down) demo_verify_root demo_verify_delegation
        demo_wrap_as_signable.

(** The world of the examples under other settings. *)
Definition demo_env_with (checks : bool) (url_base : option string)
    (importable : bool) : env :=
  mkEnv checks url_base importable (root_doc 1 true) "key_mgr.json"
    (demo_server false false) demo_verify_root demo_verify_delegation
    demo_wrap_as_signable.

(** The connection failure of the HTTP library,
    [requests.exceptions.ConnectionError]: a [RequestException], and no
    subclass of the builtin [ConnectionError] that line 156 names. *)
Definition requests_ConnectionError : exn :=
  OtherError "requests.exceptions.ConnectionError".

(** The world of the examples with a server that cannot be reached:
    [session.get] raises [e] at every request. *)
Definition unreachable_env (e : exn) : env :=
  mkEnv true (Some "https://repo.example/sigs") true (root_doc 1 true) "key_mgr.json"
    (fun _ _ => HttpRaise e) demo_verify_root demo_verify_delegation
    demo_wrap_as_signable.

Definition fresh (files : option (gmap string json)) : state :=
  mkState files 0 [] None None None.

(** * Properties *)

(** ** Versions and file names *)

Lemma next_version_of d v : version_of d = Some v -> next_version d = Ok (v + 1).
Proof.
  unfold version_of, next_version.
  destruct (getitem d "signed") as [sg|]; [|done].
  destruct (getitem sg "version") as [x|]; [|done].
  by intros ->.
Qed.

Lemma next_version_Ok d v : next_version d = Ok v -> version_of d = Some (v - 1).
Proof.
  unfold version_of, next_version.
  destruct (getitem d "signed") as [sg|]; [|done].
  destruct (getitem sg "version") as [x|]; [|done].
  destruct (as_int x) as [z|]; [|done].
  intros [= <-]. f_equal. lia.
Qed.

Lemma string_length_app (s t : string) :
  String.length (s +:+ t) = (String.length s + String.length t)%nat.
Proof.
  induction s as [|c s IH]; [done|].
  change (String c s +:+ t) with (String c (s +:+ t)). simpl. by rewrite IH.
Qed.

Lemma string_app_inv_tail (t s1 s2 : string) : s1 +:+ t = s2 +:+ t -> s1 = s2.
Proof.
  revert s2. induction s1 as [|c1 s1 IH]; intros [|c2 s2] H.
  - done.
  - apply (f_equal String.length) in H.
    change (String c2 s2 +:+ t) with (String c2 (s2 +:+ t)) in H.
    change ("" +:+ t) with t in H. simpl in H. rewrite string_length_app in H. lia.
  - apply (f_equal String.length) in H.
    change (String c1 s1 +:+ t) with (String c1 (s1 +:+ t)) in H.
    change ("" +:+ t) with t in H. simpl in H. rewrite string_length_app in H. lia.
  - change (String c1 (s1 +:+ t) = String c2 (s2 +:+ t)) in H.
    injection H as -> H. f_equal. by apply IH.
Qed.

Lemma root_fname_inj v1 v2 : root_fname v1 = root_fname v2 -> v1 = v2.
Proof.
  unfold root_fname. intros H%string_app_inv_tail. by apply (inj pretty).
Qed.

(** ** Effects on the state *)

Definition after_fetch (name : string) (s : state) : state :=
  emit (EvGet name) (count_request s).

Definition after_write (d : json) (name : string) (s : state) : state :=
  (write_metadata_to_file d name s).2.

Lemma fetch_unfold E name s :
  _fetch_channel_signing_data E name s = (fetched E (requests s) name, after_fetch name s).
Proof. done. Qed.

Lemma write_Some d name s :
  is_Some (av_dir s) ->
  write_metadata_to_file d name s = (Ok tt, after_write d name s).
Proof.
  intros [files Hf]. unfold after_write, write_metadata_to_file. by rewrite Hf.
Qed.

Lemma after_write_av_dir d name s files :
  av_dir s = Some files -> av_dir (after_write d name s) = Some (<[name := d]> files).
Proof. intros Hf. unfold after_write, write_metadata_to_file. by rewrite Hf. Qed.

Lemma after_write_trace d name s :
  is_Some (av_dir s) -> trace (after_write d name s) = (trace s ++ [EvWrite name d])%list.
Proof. intros [files Hf]. unfold after_write, write_metadata_to_file. by rewrite Hf. Qed.

Lemma after_write_requests d name s : requests (after_write d name s) = requests s.
Proof. unfold after_write, write_metadata_to_file. by destruct (av_dir s). Qed.

(** The documents a trace persisted, in the order of the writes. *)
Fixpoint writes (tr : list event) : list (string * json) :=
  match tr with
  | [] => []
  | EvWrite name d :: tr' => (name, d) :: writes tr'
  | _ :: tr' => writes tr'
  end.

(** The requests a trace issued, in order. *)
Fixpoint gets (tr : list event) : list string :=
  match tr with
  | [] => []
  | EvGet name :: tr' => name :: gets tr'
  | _ :: tr' => gets tr'
  end.

Lemma writes_app tr1 tr2 : writes (tr1 ++ tr2)%list = (writes tr1 ++ writes tr2)%list.
Proof.
  induction tr1 as [|e tr1 IH]; [done|]. destruct e; simpl; by rewrite ?IH.
Qed.

Lemma gets_app tr1 tr2 : gets (tr1 ++ tr2)%list = (gets tr1 ++ gets tr2)%list.
Proof.
  induction tr1 as [|e tr1 IH]; [done|]. destruct e; simpl; by rewrite ?IH.
Qed.

Lemma refresh_stop_frame e s :
  av_dir (refresh_stop e s) = av_dir s /\
  requests (refresh_stop e s) = requests s /\
  writes (trace (refresh_stop e s)) = writes (trace s) /\
  gets (trace (refresh_stop e s)) = gets (trace s) /\
  memo_enabled (refresh_stop e s) = memo_enabled s /\
  memo_trusted_root (refresh_stop e s) = memo_trusted_root s /\
  memo_key_mgr (refresh_stop e s) = memo_key_mgr s.
Proof.
  destruct e as [st| | | | | | |]; simpl;
    try destruct (st =? 404); simpl;
    rewrite ?writes_app, ?gets_app, ?app_nil_r; done.
Qed.

(** ** A chain of root versions on the server *)

(** [root_chain E d n ds]: from the trusted document [d], with [n] requests
    issued so far, the server serves the documents [ds] one after the other,
    each under the name of its version, one above its predecessor's, and each
    passes [verify_root] against its predecessor. *)
Fixpoint root_chain (E : env) (d : json) (n : nat) (ds : list json) : Prop :=
  match ds with
  | [] => True
  | d' :: ds' =>
      exists v,
        version_of d = Some v /\
        fetched E n (root_fname (v + 1)) = Ok d' /\
        verify_root E d d' = None /\
        version_of d' = Some (v + 1) /\
        root_chain E d' (S n) ds'
  end.

(** The exception that ends the refresh at the trusted document [d], when
    the n-th request is the one for its successor: the fetch raises, or the
    fetched document fails [verify_root]. *)
Definition probe_failure (E : env) (d : json) (n : nat) : option exn :=
  match version_of d with
  | Some v =>
      match fetched E n (root_fname (v + 1)) with
      | Err e => Some e
      | Ok untrusted => verify_root E d untrusted
      end
  | None => None
  end.

(** The state after the documents [ds], of the versions above [v], were
    fetched and written. *)
Fixpoint persist (v : Z) (ds : list json) (s : state) : state :=
  match ds with
  | [] => s
  | d :: ds' =>
      persist (v + 1) ds'
        (after_write d (root_fname (v + 1)) (after_fetch (root_fname (v + 1)) s))
  end.

(** The files of the versions above [v]. *)
Fixpoint versioned (v : Z) (ds : list json) : list (string * json) :=
  match ds with
  | [] => []
  | d :: ds' => (root_fname (v + 1), d) :: versioned (v + 1) ds'
  end.

Lemma last_cons_default (d d' : json) ds : List.last (d' :: ds) d = List.last ds d'.
Proof.
  revert d d'. induction ds as [|x ds IH]; intros d d'; [done|].
  change (List.last (x :: ds) d = List.last (x :: ds) d').
  by rewrite !IH.
Qed.

Lemma root_chain_version E ds : forall d n v,
  version_of d = Some v -> root_chain E d n ds ->
  version_of (List.last ds d) = Some (v + Z.of_nat (List.length ds)).
Proof.
  induction ds as [|d' ds IH]; intros d n v Hv Hc.
  - simpl. rewrite Hv. f_equal. lia.
  - destruct Hc as (v' & Hv' & _ & _ & Hd' & Hc). simplify_eq.
    rewrite last_cons_default, (IH _ _ _ Hd' Hc). f_equal. cbn [List.length]. lia.
Qed.

(** The refresh loop walks a chain to its end and stops at the failure. *)
Lemma refresh_chain E e ds : forall d v s fuel,
  is_Some (av_dir s) ->
  version_of d = Some v ->
  root_chain E d (requests s) ds ->
  probe_failure E (List.last ds d) (requests s + List.length ds) = Some e ->
  (List.length ds < fuel)%nat ->
  refresh E fuel d s =
    Return (List.last ds d)
      (refresh_stop e
         (after_fetch (root_fname (v + Z.of_nat (List.length ds) + 1)) (persist v ds s))).
Proof.
  induction ds as [|d' ds IH]; intros d v s fuel Hdir Hv Hc Hp Hfuel.
  - destruct fuel as [|fuel]; [cbn [List.length] in Hfuel; lia|].
    cbn [List.last List.length persist] in *. rewrite Nat.add_0_r in Hp.
    unfold probe_failure in Hp. rewrite Hv in Hp.
    cbn [refresh]. rewrite (next_version_of _ _ Hv), fetch_unfold.
    change (Z.of_nat 0) with 0. rewrite Z.add_0_r.
    destruct (fetched E (requests s) (root_fname (v + 1))) as [u|e'].
    + by rewrite Hp.
    + by simplify_eq.
  - destruct fuel as [|fuel]; [cbn [List.length] in Hfuel; lia|].
    destruct Hc as (v' & Hv' & Hf & Hver & Hd' & Hc).
    assert (v' = v) as -> by congruence.
    cbn [refresh]. rewrite (next_version_of _ _ Hv), fetch_unfold, Hf, Hver.
    assert (is_Some (av_dir (after_fetch (root_fname (v + 1)) s))) as Hdir' by done.
    rewrite write_Some by done.
    rewrite last_cons_default in *. cbn [List.length persist] in *.
    rewrite (IH d' (v + 1) _ fuel).
    + do 3 f_equal. f_equal. lia.
    + destruct Hdir' as [files Hfiles]. rewrite (after_write_av_dir _ _ _ _ Hfiles).
      by eexists.
    + done.
    + by rewrite after_write_requests.
    + rewrite after_write_requests.
      by replace (requests (after_fetch (root_fname (v + 1)) s) + List.length ds)%nat
        with (requests s + S (List.length ds))%nat by (simpl; lia).
    + lia.
Qed.

(** What [persist] leaves behind. *)

Lemma after_fetch_lookup name' name s :
  lookup_file name' (after_fetch name s) = lookup_file name' s.
Proof. done. Qed.

Lemma after_write_lookup d name name' s :
  is_Some (av_dir s) ->
  lookup_file name' (after_write d name s) =
    if decide (name = name') then Some d else lookup_file name' s.
Proof.
  intros [files Hf]. unfold lookup_file.
  rewrite (after_write_av_dir _ _ _ _ Hf), Hf. apply lookup_insert.
Qed.

Lemma after_write_is_Some d name s :
  is_Some (av_dir s) -> is_Some (av_dir (after_write d name s)).
Proof. intros [files Hf]. rewrite (after_write_av_dir _ _ _ _ Hf). by eexists. Qed.

Lemma persist_is_Some ds : forall v s,
  is_Some (av_dir s) -> is_Some (av_dir (persist v ds s)).
Proof.
  induction ds as [|d ds IH]; intros v s Hs; [done|].
  cbn [persist]. apply IH. by apply after_write_is_Some.
Qed.

Lemma persist_requests ds : forall v s,
  requests (persist v ds s) = (requests s + List.length ds)%nat.
Proof.
  induction ds as [|d ds IH]; intros v s; cbn [persist List.length]; [lia|].
  rewrite IH, after_write_requests. simpl. lia.
Qed.

Lemma persist_memo ds : forall v s,
  memo_enabled (persist v ds s) = memo_enabled s /\
  memo_trusted_root (persist v ds s) = memo_trusted_root s /\
  memo_key_mgr (persist v ds s) = memo_key_mgr s.
Proof.
  induction ds as [|d ds IH]; intros v s; [done|].
  cbn [persist]. destruct (IH (v + 1)
    (after_write d (root_fname (v + 1)) (after_fetch (root_fname (v + 1)) s)))
    as (-> & -> & ->).
  unfold after_write, write_metadata_to_file. by destruct (av_dir _).
Qed.

Lemma persist_writes ds : forall v s,
  is_Some (av_dir s) ->
  writes (trace (persist v ds s)) = (writes (trace s) ++ versioned v ds)%list.
Proof.
  induction ds as [|d ds IH]; intros v s Hs; cbn [persist versioned].
  - by rewrite app_nil_r.
  - rewrite IH by by apply after_write_is_Some.
    rewrite after_write_trace by done. unfold after_fetch, emit; cbn [trace].
    rewrite !writes_app. cbn [writes]. by rewrite app_nil_r, <- app_assoc.
Qed.

Lemma persist_gets ds : forall v s,
  is_Some (av_dir s) ->
  gets (trace (persist v ds s)) = (gets (trace s) ++ (versioned v ds).*1)%list.
Proof.
  induction ds as [|d ds IH]; intros v s Hs; cbn [persist versioned].
  - by rewrite app_nil_r.
  - rewrite IH by by apply after_write_is_Some.
    rewrite after_write_trace by done. unfold after_fetch, emit; cbn [trace].
    rewrite !gets_app. cbn [gets fmap list_fmap].
    by rewrite app_nil_r, <- app_assoc.
Qed.

Lemma versioned_names ds : forall v name,
  name ∈ (versioned v ds).*1 ->
  exists j, v < j <= v + Z.of_nat (List.length ds) /\ name = root_fname j.
Proof.
  induction ds as [|d ds IH]; intros v name; cbn [versioned fmap list_fmap List.length].
  - by intros ?%elem_of_nil.
  - intros [->|Hin]%elem_of_cons.
    + exists (v + 1). split; [lia|done].
    + destruct (IH _ _ Hin) as (j & Hj & ->). exists j. split; [lia|done].
Qed.

Lemma persist_lookup_other ds : forall v s name,
  is_Some (av_dir s) ->
  name ∉ (versioned v ds).*1 ->
  lookup_file name (persist v ds s) = lookup_file name s.
Proof.
  induction ds as [|d ds IH]; intros v s name Hs Hn; [done|].
  cbn [persist versioned fmap list_fmap] in *.
  apply not_elem_of_cons in Hn as [Hne Hn].
  rewrite IH by (by try apply after_write_is_Some).
  rewrite after_write_lookup by done. by rewrite decide_False by done.
Qed.

Lemma persist_lookup ds : forall v s i d,
  is_Some (av_dir s) ->
  ds !! i = Some d ->
  lookup_file (root_fname (v + 1 + Z.of_nat i)) (persist v ds s) = Some d.
Proof.
  induction ds as [|d' ds IH]; intros v s i d Hs Hi; [done|].
  cbn [persist]. destruct i as [|i]; simplify_eq/=.
  - rewrite persist_lookup_other.
    + rewrite after_write_lookup by done. rewrite Z.add_0_r. by rewrite decide_True.
    + by apply after_write_is_Some.
    + intros (j & Hj & Heq%root_fname_inj)%versioned_names. lia.
  - replace (v + 1 + Z.of_nat (S i)) with (v + 1 + 1 + Z.of_nat i) by lia.
    apply (IH (v + 1)); [by apply after_write_is_Some|done].
Qed.

(** The documents of a chain verify one against the other. *)
Fixpoint verified_chain (E : env) (d : json) (us : list json) : Prop :=
  match us with
  | [] => True
  | u :: us' => verify_root E d u = None /\ verified_chain E u us'
  end.

Lemma root_chain_verified E ds : forall d n,
  root_chain E d n ds -> verified_chain E d ds.
Proof.
  induction ds as [|d' ds IH]; intros d n; [done|].
  intros (v & _ & _ & Hver & _ & Hc). split; [done|]. by eapply IH.
Qed.

Lemma versioned_docs ds : forall v, (versioned v ds).*2 = ds.
Proof.
  induction ds as [|d ds IH]; intros v; [done|].
  cbn [versioned fmap list_fmap]. simpl. f_equal. apply IH.
Qed.

(** ** The first phase of [trusted_root] *)

Lemma glob_empty s : av_dir s = Some ∅ -> glob_root_json s = [].
Proof. intros Hs. unfold glob_root_json. by rewrite Hs, map_to_list_empty. Qed.

Definition after_no_cache (s : state) : state :=
  log Debug no_cache_msg (emit EvGlob s).

Lemma load_current_empty E s :
  av_dir s = Some ∅ ->
  load_current E s = Return (INITIAL_TRUST_ROOT E) (after_no_cache s).
Proof.
  intros Hs. unfold load_current.
  rewrite (glob_empty (emit EvGlob s)) by done. done.
Qed.

Lemma load_current_frame E s d s' :
  load_current E s = Return d s' ->
  av_dir s' = av_dir s /\ requests s' = requests s /\
  writes (trace s') = writes (trace s) /\ gets (trace s') = gets (trace s) /\
  memo_enabled s' = memo_enabled s /\
  memo_trusted_root s' = memo_trusted_root s /\
  memo_key_mgr s' = memo_key_mgr s.
Proof.
  unfold load_current, load_metadata_from_file.
  destruct (first_int_prefixed _) as [name|].
  - destruct (lookup_file name _) as [d0|]; [|done].
    intros [= <- <-]. simpl. by rewrite !writes_app, !gets_app, !app_nil_r.
  - intros [= <- <-]. simpl. by rewrite !writes_app, !gets_app, !app_nil_r.
Qed.

(** ** What the refresh adopts *)

(** X1. Whatever the server answers and however the walk ends, the documents
    the loop writes verify one against the other, starting from the document
    it was given, and the document it returns is the last of them: a fetched
    document that failed [verify_root] is neither written nor returned. *)
Lemma refresh_adopts_only_verified E fuel : forall d s,
  match refresh E fuel d s with
  | Return r s' =>
      exists us, verified_chain E d us /\ r = List.last us d /\
                 (writes (trace s')).*2 = ((writes (trace s)).*2 ++ us)%list
  | Raise _ s' =>
      exists us, verified_chain E d us /\
                 (writes (trace s')).*2 = ((writes (trace s)).*2 ++ us)%list
  | OutOfFuel => True
  end.
Proof.
  induction fuel as [|fuel IH]; intros d s; [done|].
  cbn [refresh].
  destruct (next_version d) as [v|e]; [|exists []; by rewrite app_nil_r].
  rewrite fetch_unfold.
  assert (forall e, (writes (trace (refresh_stop e (after_fetch (root_fname v) s)))).*2
                    = ((writes (trace s)).*2 ++ [])%list) as Hstop.
  { intros e. destruct (refresh_stop_frame e (after_fetch (root_fname v) s))
      as (_ & _ & -> & _).
    unfold after_fetch, emit; cbn [trace]. rewrite writes_app. cbn [writes].
    by rewrite !app_nil_r. }
  destruct (fetched E (requests s) (root_fname v)) as [u|e].
  - destruct (verify_root E d u) as [e|] eqn:Hver.
    + exists []. by rewrite Hstop.
    + unfold write_metadata_to_file.
      destruct (av_dir (after_fetch (root_fname v) s)) as [files|] eqn:Hfiles.
      * specialize (IH u (emit (EvWrite (root_fname v) u)
                       (set_av_dir (Some (<[root_fname v := u]> files))
                          (after_fetch (root_fname v) s)))).
        assert (forall us : list json,
                  ((writes (trace s)).*2 ++ u :: us)%list
                  = ((writes (trace (emit (EvWrite (root_fname v) u)
                       (set_av_dir (Some (<[root_fname v := u]> files))
                          (after_fetch (root_fname v) s))))).*2 ++ us)%list) as Hw.
        { intros us. unfold after_fetch, emit, set_av_dir; cbn [trace].
          rewrite !writes_app. cbn [writes]. rewrite app_nil_r, fmap_app.
          by rewrite <- app_assoc. }
        destruct (refresh E fuel u _) as [r s'|e s'|]; [| |done].
        -- destruct IH as (us & Hus & -> & Htr). exists (u :: us).
           split; [by split|]. split; [by rewrite last_cons_default|].
           by rewrite Htr, Hw.
        -- destruct IH as (us & Hus & Htr). exists (u :: us).
           split; [by split|]. by rewrite Htr, Hw.
      * exists []. split; [done|]. unfold after_fetch, emit; cbn [trace].
        rewrite writes_app. cbn [writes]. by rewrite !app_nil_r.
  - exists []. by rewrite Hstop.
Qed.

(** ** [trusted_root] along a chain *)

(** The requests and writes of a walk along the versions above [v]: each
    document is written right after its own fetch, before the next one. *)
Fixpoint chain_events (v : Z) (ds : list json) : list event :=
  match ds with
  | [] => []
  | d :: ds' =>
      EvGet (root_fname (v + 1)) :: EvWrite (root_fname (v + 1)) d
        :: chain_events (v + 1) ds'
  end.

(** What the [except] clauses log. *)
Definition stop_events (e : exn) : list event :=
  match e with
  | HTTPError status => if status =? 404 then [] else [EvLog Error (MsgExn e)]
  | _ => [EvLog Error (MsgExn e)]
  end.

Lemma refresh_stop_trace e s :
  trace (refresh_stop e s) = (trace s ++ stop_events e)%list.
Proof.
  destruct e as [st| | | | | | |]; simpl; try done.
  destruct (st =? 404); simpl; [by rewrite app_nil_r|done].
Qed.

Lemma persist_trace ds : forall v s,
  is_Some (av_dir s) ->
  trace (persist v ds s) = (trace s ++ chain_events v ds)%list.
Proof.
  induction ds as [|d ds IH]; intros v s Hs; cbn [persist chain_events].
  - by rewrite app_nil_r.
  - rewrite IH by by apply after_write_is_Some.
    rewrite after_write_trace by done. unfold after_fetch, emit; cbn [trace].
    by rewrite <- !app_assoc.
Qed.

Lemma trusted_root_chain E s s0 d0 v0 e ds fuel :
  memo_trusted_root s = None ->
  is_Some (av_dir s) ->
  load_current E s = Return d0 s0 ->
  version_of d0 = Some v0 ->
  root_chain E d0 (requests s) ds ->
  probe_failure E (List.last ds d0) (requests s + List.length ds) = Some e ->
  (List.length ds < fuel)%nat ->
  trusted_root E fuel s =
    Return (List.last ds d0)
      (set_memo_trusted_root (List.last ds d0)
         (refresh_stop e
            (after_fetch (root_fname (v0 + Z.of_nat (List.length ds) + 1))
               (persist v0 ds s0)))).
Proof.
  intros Hmemo Hdir Hload Hv Hc Hp Hfuel.
  destruct (load_current_frame _ _ _ _ Hload) as (Hd0 & Hr0 & _).
  unfold trusted_root, trusted_root_body. rewrite Hmemo, Hload.
  rewrite (refresh_chain E e ds d0 v0 s0 fuel); [done|..].
  - by rewrite Hd0.
  - done.
  - by rewrite Hr0.
  - by rewrite Hr0.
  - done.
Qed.

(** C1. For a chain of root versions V0 < V1 < ... < Vn on the server, V0 the
    built-in root, each served under the name of its version and each passing
    [verify_root] against its predecessor, and the request for the version
    after Vn failing: [trusted_root], evaluated with an empty verification
    directory, returns the document of version Vn; it writes the files of
    V1 ... Vn in ascending order, each right after the fetch that brought it
    (the loop writes only what passed [verify_root] against the document it
    held), and the directory then holds each of them under its name. *)
Theorem trusted_root_from_empty_directory E s v0 e ds fuel :
  av_dir s = Some ∅ ->
  memo_trusted_root s = None ->
  version_of (INITIAL_TRUST_ROOT E) = Some v0 ->
  root_chain E (INITIAL_TRUST_ROOT E) (requests s) ds ->
  probe_failure E (List.last ds (INITIAL_TRUST_ROOT E))
    (requests s + List.length ds) = Some e ->
  (List.length ds < fuel)%nat ->
  exists s',
    trusted_root E fuel s = Return (List.last ds (INITIAL_TRUST_ROOT E)) s' /\
    version_of (List.last ds (INITIAL_TRUST_ROOT E))
      = Some (v0 + Z.of_nat (List.length ds)) /\
    trace s' =
      (trace (after_no_cache s) ++ chain_events v0 ds
         ++ EvGet (root_fname (v0 + Z.of_nat (List.length ds) + 1))
         :: stop_events e)%list /\
    writes (trace s') = (writes (trace s) ++ versioned v0 ds)%list /\
    verified_chain E (INITIAL_TRUST_ROOT E) (versioned v0 ds).*2 /\
    (forall i d, ds !! i = Some d ->
       lookup_file (root_fname (v0 + 1 + Z.of_nat i)) s' = Some d) /\
    (forall name, name ∉ (versioned v0 ds).*1 -> lookup_file name s' = None).
Proof.
  intros Hdir Hmemo Hv Hc Hp Hfuel.
  pose proof (load_current_empty E s Hdir) as Hload.
  assert (is_Some (av_dir s)) as Hsome by (rewrite Hdir; by eexists).
  assert (is_Some (av_dir (after_no_cache s))) as Hsome' by done.
  eexists. split; [by eapply trusted_root_chain|].
  split; [by eapply root_chain_version|].
  split; [|split; [|split; [|split]]].
  - cbn [trace set_memo_trusted_root]. rewrite refresh_stop_trace.
    unfold after_fetch at 1. unfold emit at 1. cbn [trace count_request].
    rewrite persist_trace by done. by rewrite <- !app_assoc.
  - cbn [trace set_memo_trusted_root].
    destruct (refresh_stop_frame e
      (after_fetch (root_fname (v0 + Z.of_nat (List.length ds) + 1))
         (persist v0 ds (after_no_cache s)))) as (_ & _ & -> & _).
    unfold after_fetch at 1. unfold emit at 1. cbn [trace count_request].
    rewrite writes_app, persist_writes by done. cbn [writes].
    rewrite app_nil_r. f_equal. unfold after_no_cache, log, emit. cbn [trace].
    rewrite !writes_app. cbn [writes]. by rewrite !app_nil_r.
  - rewrite versioned_docs. by eapply root_chain_verified.
  - intros i d Hi. unfold lookup_file. cbn [av_dir set_memo_trusted_root].
    destruct (refresh_stop_frame e
      (after_fetch (root_fname (v0 + Z.of_nat (List.length ds) + 1))
         (persist v0 ds (after_no_cache s)))) as (-> & _).
    by apply (persist_lookup ds v0 (after_no_cache s) i d).
  - intros name Hname. unfold lookup_file. cbn [av_dir set_memo_trusted_root].
    destruct (refresh_stop_frame e
      (after_fetch (root_fname (v0 + Z.of_nat (List.length ds) + 1))
         (persist v0 ds (after_no_cache s)))) as (-> & _).
    change (lookup_file name (persist v0 ds (after_no_cache s)) = None).
    rewrite persist_lookup_other by done.
    unfold lookup_file, after_no_cache. cbn [av_dir log emit]. by rewrite Hdir.
Qed.

(** C3. Along a chain whose versions up to k-1 are served and verify, when
    the fetch of version k raises (a 404 [HTTPError], or anything else) or the
    fetched document fails [verify_root]: [trusted_root] returns the document
    of version k-1 and does not raise; that document is what it memoizes as
    trusted; the only files written are those of the versions below k, so no
    name of a version k or above is written and the directory holds under
    such a name what it held before. *)
Theorem trusted_root_stops_at_failed_version E s s0 d0 v0 e ds fuel :
  memo_trusted_root s = None ->
  is_Some (av_dir s) ->
  load_current E s = Return d0 s0 ->
  version_of d0 = Some v0 ->
  root_chain E d0 (requests s) ds ->
  probe_failure E (List.last ds d0) (requests s + List.length ds) = Some e ->
  (List.length ds < fuel)%nat ->
  exists s',
    trusted_root E fuel s = Return (List.last ds d0) s' /\
    version_of (List.last ds d0) = Some (v0 + Z.of_nat (List.length ds)) /\
    memo_trusted_root s' = Some (List.last ds d0) /\
    writes (trace s') = (writes (trace s) ++ versioned v0 ds)%list /\
    (forall j, v0 + Z.of_nat (List.length ds) < j ->
       (root_fname j ∉ (versioned v0 ds).*1) /\
       lookup_file (root_fname j) s' = lookup_file (root_fname j) s).
Proof.
  intros Hmemo Hdir Hload Hv Hc Hp Hfuel.
  destruct (load_current_frame _ _ _ _ Hload) as (Hd0 & Hr0 & Hw0 & _).
  assert (is_Some (av_dir s0)) as Hsome0 by by rewrite Hd0.
  eexists. split; [by eapply trusted_root_chain|].
  split; [by eapply root_chain_version|].
  split; [done|].
  assert (forall j, v0 + Z.of_nat (List.length ds) < j ->
            root_fname j ∉ (versioned v0 ds).*1) as Hfresh.
  { intros j Hj (j' & Hj' & Heq%root_fname_inj)%versioned_names. lia. }
  split.
  - cbn [trace set_memo_trusted_root].
    destruct (refresh_stop_frame e
      (after_fetch (root_fname (v0 + Z.of_nat (List.length ds) + 1))
         (persist v0 ds s0))) as (_ & _ & -> & _).
    unfold after_fetch at 1. unfold emit at 1. cbn [trace count_request].
    rewrite writes_app, persist_writes by done. cbn [writes].
    by rewrite app_nil_r, Hw0.
  - intros j Hj. split; [by apply Hfresh|].
    unfold lookup_file at 1. cbn [av_dir set_memo_trusted_root].
    destruct (refresh_stop_frame e
      (after_fetch (root_fname (v0 + Z.of_nat (List.length ds) + 1))
         (persist v0 ds s0))) as (-> & _).
    change (lookup_file (root_fname j) (persist v0 ds s0) = lookup_file (root_fname j) s).
    rewrite persist_lookup_other by auto.
    unfold lookup_file. by rewrite Hd0.
Qed.

(** The chain 1 < 2 < 3 from an empty directory: the request for 4 is a 404. *)
Lemma trusted_root_from_empty_directory_witness :
  exists s',
    trusted_root (demo_env false false) 3 (fresh (Some ∅))
      = Return (root_doc 3 true) s' /\
    writes (trace s')
      = [("2.root.json", root_doc 2 true); ("3.root.json", root_doc 3 true)] /\
    lookup_file "2.root.json" s' = Some (root_doc 2 true) /\
    lookup_file "3.root.json" s' = Some (root_doc 3 true).
Proof.
  destruct (trusted_root_from_empty_directory (demo_env false false)
              (fresh (Some ∅)) 1 (HTTPError 404)
              [root_doc 2 true; root_doc 3 true] 3)
    as (s' & Hret & _ & _ & Hw & _ & Hfiles & _).
  - reflexivity.
  - reflexivity.
  - reflexivity.
  - cbn [root_chain]. exists 1. repeat split; try reflexivity.
    exists 2. repeat split; reflexivity.
  - reflexivity.
  - cbn [List.length]. lia.
  - exists s'. split; [exact Hret|]. split; [exact Hw|].
    split; [exact (Hfiles 0%nat _ eq_refl)|exact (Hfiles 1%nat _ eq_refl)].
Defined.

(** The directory holds root 1, the server's root 3 is unsigned: the walk
    stops at root 2. *)
Lemma trusted_root_stops_at_failed_version_witness :
  exists s',
    trusted_root (demo_env true false) 2
        (fresh (Some {["1.root.json" := root_doc 1 true]}))
      = Return (root_doc 2 true) s' /\
    memo_trusted_root s' = Some (root_doc 2 true) /\
    writes (trace s') = [("2.root.json", root_doc 2 true)] /\
    lookup_file "3.root.json" s' = None.
Proof.
  destruct (trusted_root_stops_at_failed_version (demo_env true false)
              (fresh (Some {["1.root.json" := root_doc 1 true]}))
              (emit (EvLoad "1.root.json")
                 (log Info (loading_msg "1.root.json")
                    (emit EvGlob (fresh (Some {["1.root.json" := root_doc 1 true]})))))
              (root_doc 1 true) 1 SignatureError [root_doc 2 true] 2)
    as (s' & Hret & _ & Hmemo & Hw & Hfiles).
  - reflexivity.
  - by eexists.
  - vm_compute. reflexivity.
  - reflexivity.
  - cbn [root_chain]. exists 1. repeat split; reflexivity.
  - reflexivity.
  - cbn [List.length]. lia.
  - exists s'. split; [exact Hret|]. split; [exact Hmemo|]. split; [exact Hw|].
    destruct (Hfiles 3) as [_ H3]; [simpl; lia|]. exact H3.
Defined.

(** ** The starting candidate *)

(** C2. With [9.root.json] and [10.root.json] both in the directory, the
    paths sort as strings, ["9.root.json"] before ["10.root.json"], and
    [trusted_root] starts from root 9, not from root 10; with the server
    unreachable it returns root 9. *)
Theorem trusted_root_starts_from_9_not_10 :
  let s := fresh (Some (<["10.root.json" := root_doc 10 true]>
                          {["9.root.json" := root_doc 9 true]})) in
  sorted_reverse (glob_root_json s) = ["9.root.json"; "10.root.json"] /\
  (exists s', load_current (demo_env false true) s = Return (root_doc 9 true) s') /\
  (exists s', trusted_root (demo_env false true) 1 s = Return (root_doc 9 true) s').
Proof.
  cbv zeta. split; [|split].
  - vm_compute. reflexivity.
  - eexists. vm_compute. reflexivity.
  - eexists. vm_compute. reflexivity.
Qed.

(** What holds of the first phase in general: a name whose prefix is no
    integer is passed over, and without a usable name the walk starts from
    the built-in root. *)
Lemma first_int_prefixed_Some paths name :
  first_int_prefixed paths = Some name ->
  name ∈ paths /\ is_Some (py_int (split_dot_head name)).
Proof.
  induction paths as [|p paths IH]; [done|]. cbn [first_int_prefixed].
  destruct (py_int (split_dot_head p)) as [z|] eqn:Hp.
  - intros [= <-]. split; [by left|]. rewrite Hp. by eexists.
  - intros [Hin Hint]%IH. split; [by right|done].
Qed.

Lemma first_int_prefixed_None paths :
  first_int_prefixed paths = None <->
  forall name, name ∈ paths -> py_int (split_dot_head name) = None.
Proof.
  induction paths as [|p paths IH]; cbn [first_int_prefixed].
  - split; [|done]. by intros _ name ?%elem_of_nil.
  - destruct (py_int (split_dot_head p)) as [z|] eqn:Hp.
    + split; [done|]. intros H. specialize (H p (list_elem_of_here _ _)). congruence.
    + rewrite IH. split.
      * intros H name [->|Hin]%elem_of_cons; auto.
      * intros H name Hin. apply H. by right.
Qed.

Lemma load_current_bootstrap E s :
  (forall name, name ∈ sorted_reverse (glob_root_json s) ->
     py_int (split_dot_head name) = None) ->
  load_current E s = Return (INITIAL_TRUST_ROOT E) (after_no_cache s).
Proof.
  intros H%first_int_prefixed_None. unfold load_current.
  change (glob_root_json (emit EvGlob s)) with (glob_root_json s). by rewrite H.
Qed.

(** In general the candidate is the usable name that is greatest in the order
    of strings. *)

Fixpoint descending (l : list string) : Prop :=
  match l with
  | [] => True
  | x :: l' => (forall y, y ∈ l' -> String.le y x) /\ descending l'
  end.

Lemma insert_desc_elem x l y : y ∈ insert_desc x l <-> y = x \/ y ∈ l.
Proof.
  induction l as [|z l IH]; cbn [insert_desc].
  - rewrite list_elem_of_singleton. split; [by left|]. intros [?|?%elem_of_nil]; done.
  - destruct (String.leb z x).
    + by rewrite elem_of_cons.
    + rewrite !elem_of_cons, IH. tauto.
Qed.

Lemma sorted_reverse_elem l y : y ∈ sorted_reverse l <-> y ∈ l.
Proof.
  induction l as [|x l IH]; [done|].
  cbn [sorted_reverse foldr]. fold (sorted_reverse l).
  by rewrite insert_desc_elem, IH, elem_of_cons.
Qed.

Lemma insert_desc_descending x l : descending l -> descending (insert_desc x l).
Proof.
  induction l as [|z l IH]; cbn [insert_desc descending].
  - split; [|done]. by intros y ?%elem_of_nil.
  - intros [Hz Hl]. destruct (String.leb z x) eqn:Hzx.
    + cbn [descending]. split; [|done].
      intros y [->|Hy]%elem_of_cons.
      * unfold String.le. by rewrite Hzx.
      * transitivity z; [by apply Hz|]. unfold String.le. by rewrite Hzx.
    + cbn [descending]. split; [|by apply IH].
      intros y [->|Hy]%insert_desc_elem; [|by apply Hz].
      destruct (total String.le x z) as [?|Hle]; [done|].
      unfold String.le in Hle. by rewrite Hzx in Hle.
Qed.

Lemma sorted_reverse_descending l : descending (sorted_reverse l).
Proof.
  induction l as [|x l IH]; [done|].
  cbn [sorted_reverse foldr]. by apply insert_desc_descending.
Qed.

Lemma first_int_prefixed_greatest paths name :
  descending paths ->
  first_int_prefixed paths = Some name ->
  forall name', name' ∈ paths -> is_Some (py_int (split_dot_head name')) ->
    String.le name' name.
Proof.
  induction paths as [|p paths IH]; [done|].
  cbn [first_int_prefixed descending]. intros [Hp Hdesc].
  destruct (py_int (split_dot_head p)) as [z|] eqn:Hint.
  - intros [= <-] name' [->|Hin]%elem_of_cons _; [done|by apply Hp].
  - intros Hfirst name' [->|Hin]%elem_of_cons Hname'.
    + rewrite Hint in Hname'. by destruct Hname'.
    + by apply IH.
Qed.

Lemma glob_root_json_elem s name :
  name ∈ glob_root_json s <-> glob_match name = true /\ is_Some (lookup_file name s).
Proof.
  unfold glob_root_json, lookup_file. destruct (av_dir s) as [files|].
  - rewrite list_elem_of_filter, Is_true_true. split.
    + intros [Hm ([k d] & -> & Hin%elem_of_map_to_list)%list_elem_of_fmap_1].
      split; [done|]. by exists d.
    + intros [Hm [d Hd]]. split; [done|].
      apply (list_elem_of_fmap_2' fst _ (name, d)); [|done].
      by apply elem_of_map_to_list.
  - split; [by intros ?%elem_of_nil|]. by intros [_ [? ?]].
Qed.

(** What the first phase does: the document it starts from is the one stored
    under a name that matches the pattern, has an integer prefix, and comes
    last in string order among such names. *)
Lemma load_current_cached E s d s' name :
  first_int_prefixed (sorted_reverse (glob_root_json s)) = Some name ->
  load_current E s = Return d s' ->
  lookup_file name s = Some d /\ glob_match name = true /\
  is_Some (py_int (split_dot_head name)) /\
  forall name', glob_match name' = true -> is_Some (lookup_file name' s) ->
    is_Some (py_int (split_dot_head name')) -> String.le name' name.
Proof.
  intros Hfirst. unfold load_current, load_metadata_from_file.
  change (glob_root_json (emit EvGlob s)) with (glob_root_json s). rewrite Hfirst.
  change (lookup_file name (log Info (loading_msg name) (emit EvGlob s)))
    with (lookup_file name s).
  destruct (first_int_prefixed_Some _ _ Hfirst)
    as [[Hm Hfile]%sorted_reverse_elem%glob_root_json_elem Hint].
  destruct (lookup_file name s) as [d0|] eqn:Hd0; [|by destruct Hfile].
  intros [= <- <-]. repeat split; try done.
  intros name' Hm' Hfile' Hint'.
  eapply first_int_prefixed_greatest;
    [apply sorted_reverse_descending|exact Hfirst| |done].
  by apply sorted_reverse_elem, glob_root_json_elem.
Qed.

(** ** [trusted_root] never returns [None] *)

Lemma version_of_not_None d v : version_of d = Some v -> is_None d = false.
Proof. by destruct d. Qed.

(** The loop returns the document whose version it has just read. *)
Lemma refresh_returns_versioned E fuel : forall d s r s',
  refresh E fuel d s = Return r s' -> exists v, version_of r = Some v.
Proof.
  induction fuel as [|fuel IH]; intros d s r s'; [done|].
  cbn [refresh]. destruct (next_version d) as [v|e] eqn:Hv; [|done].
  rewrite fetch_unfold.
  destruct (fetched E (requests s) (root_fname v)) as [u|e].
  - destruct (verify_root E d u).
    + intros [= <- <-]. eauto using next_version_Ok.
    + destruct (write_metadata_to_file u (root_fname v) _) as [[[]|e] s2]; [|done].
      apply IH.
  - intros [= <- <-]. eauto using next_version_Ok.
Qed.

Lemma trusted_root_body_versioned E fuel s r s' :
  trusted_root_body E fuel s = Return r s' -> exists v, version_of r = Some v.
Proof.
  unfold trusted_root_body. destruct (load_current E s) as [d s1|e s1|]; [|done..].
  apply refresh_returns_versioned.
Qed.

(** When the first request of the refresh fails, the starting document is
    the result. *)
Lemma trusted_root_first_probe_fails E fuel s d0 s0 e :
  memo_trusted_root s = None ->
  load_current E s = Return d0 s0 ->
  probe_failure E d0 (requests s) = Some e ->
  exists s', trusted_root E (S fuel) s = Return d0 s'.
Proof.
  intros Hmemo Hload Hp.
  destruct (load_current_frame _ _ _ _ Hload) as (_ & Hr0 & _).
  unfold trusted_root, trusted_root_body. rewrite Hmemo, Hload. cbn [refresh].
  unfold probe_failure in Hp.
  destruct (version_of d0) as [v|] eqn:Hv; [|done].
  rewrite (next_version_of _ _ Hv), fetch_unfold, Hr0.
  destruct (fetched E (requests s) (root_fname (v + 1))) as [u|e'].
  - rewrite Hp. eauto.
  - eauto.
Qed.

(** [v is None] holds of [None] alone. *)
Lemma is_None_false d : is_None d = false <-> d <> JNull.
Proof. by destruct d. Qed.

(** The URL base counts as missing when it is [None] or the empty string. *)
Lemma url_base_defined_false E :
  url_base_defined E = false <->
  signing_metadata_url_base E = None \/ signing_metadata_url_base E = Some "".
Proof.
  unfold url_base_defined. destruct (signing_metadata_url_base E) as [u|].
  - rewrite negb_false_iff, String.eqb_eq. split; [intros ->; by right|].
    intros [?|[= ->]]; done.
  - split; [by left|done].
Qed.

Lemma url_base_defined_true E :
  url_base_defined E = true <->
  exists u, signing_metadata_url_base E = Some u /\ u <> "".
Proof.
  unfold url_base_defined. destruct (signing_metadata_url_base E) as [u|].
  - rewrite negb_true_iff, String.eqb_neq. split; [by exists u|].
    by intros (u' & [= ->] & ?).
  - split; [done|]. by intros (u & ? & _).
Qed.

(** C9, as the code has it. Evaluated for the first time, [trusted_root]
    never returns [None]: whenever it returns, what it returns is a
    document.  It does return, and returns the document it started from
    (the built-in root when the directory has no usable file), when the
    first request of the refresh for the version after that document's
    fails.  So [enabled] never returns [False] for a missing root: a [False]
    it returns comes from the configuration, the missing dependency, or a
    [key_mgr] that is [None]. *)
Theorem trusted_root_never_None E fuel s :
  memo_trusted_root s = None ->
  (forall d s', trusted_root E fuel s = Return d s' -> d <> JNull) /\
  (forall d0 s0 e, load_current E s = Return d0 s0 ->
     probe_failure E d0 (requests s) = Some e ->
     exists s', trusted_root E (S fuel) s = Return d0 s' /\ d0 <> JNull) /\
  (forall s', memo_enabled s = None ->
     enabled E fuel s = Return false s' ->
     extra_safety_checks E = false \/
     signing_metadata_url_base E = None \/
     signing_metadata_url_base E = Some "" \/
     conda_content_trust_importable E = false \/
     exists root s2 s3,
       trusted_root E fuel (ensure_av_data_dir s) = Return root s2 /\
       root <> JNull /\
       key_mgr E fuel s2 = Return JNull s3).
Proof.
  intros Hmemo. split; [|split].
  - intros d s'. unfold trusted_root. rewrite Hmemo.
    destruct (trusted_root_body E fuel s) as [r s1|e s1|] eqn:Hbody; [|done..].
    intros [= <- <-]. destruct (trusted_root_body_versioned _ _ _ _ _ Hbody) as [v Hv].
    apply is_None_false. eauto using version_of_not_None.
  - intros d0 s0 e Hload Hp.
    destruct (trusted_root_first_probe_fails E fuel s d0 s0 e) as [s' Hs']; [done..|].
    exists s'. split; [done|]. unfold probe_failure in Hp.
    destruct (version_of d0) eqn:Hv; [|done].
    apply is_None_false. eauto using version_of_not_None.
  - intros s' Hmemo_en. unfold enabled, enabled_body. rewrite Hmemo_en.
    destruct (extra_safety_checks E); [|by left].
    destruct (url_base_defined E) eqn:Hurl;
      [|apply url_base_defined_false in Hurl; destruct Hurl; auto].
    destruct (conda_content_trust_importable E); [|by right; right; right; left].
    cbn [negb]. intros Hen. right; right; right; right.
    assert (memo_trusted_root (ensure_av_data_dir s) = None) as Hmemo'.
    { unfold ensure_av_data_dir. by destruct (av_dir s). }
    destruct (trusted_root E fuel (ensure_av_data_dir s)) as [root s2|e s2|] eqn:Hroot;
      [|done..].
    assert (is_None root = false) as Hroot_ok.
    { revert Hroot. unfold trusted_root. rewrite Hmemo'.
      destruct (trusted_root_body E fuel _) as [r s1|e s1|] eqn:Hbody; [|done..].
      intros [= <- <-].
      destruct (trusted_root_body_versioned _ _ _ _ _ Hbody) as [v Hv].
      eauto using version_of_not_None. }
    rewrite Hroot_ok in Hen. apply is_None_false in Hroot_ok.
    destruct (key_mgr E fuel s2) as [km s3|e s3|] eqn:Hkm; [|done..].
    destruct km; try done. eauto 10.
Qed.

(** A cached [1.root.json] that holds the empty object: [trusted_root] raises
    [KeyError] at [trusted['signed']], whatever the fuel, and returns no
    document. *)
Lemma trusted_root_raises_on_malformed_cache :
  ~ (exists fuel d s',
       trusted_root (demo_env false false) fuel
         (fresh (Some {["1.root.json" := JObj []]})) = Return d s') /\
  (exists s',
     trusted_root (demo_env false false) 1
       (fresh (Some {["1.root.json" := JObj []]})) = Raise KeyError s').
Proof.
  split.
  - intros (fuel & d & s' & H). destruct fuel as [|fuel]; vm_compute in H; discriminate.
  - eexists. vm_compute. reflexivity.
Qed.

Lemma trusted_root_never_None_witness :
  (exists s', trusted_root (demo_env false true) 1 (fresh (Some ∅))
                = Return (root_doc 1 true) s' /\
              root_doc 1 true <> JNull) /\
  (forall d s', trusted_root (demo_env false false) 3 (fresh (Some ∅)) = Return d s' ->
     d <> JNull).
Proof.
  destruct (trusted_root_never_None (demo_env false true) 0 (fresh (Some ∅)) eq_refl)
    as (_ & Hret & _).
  destruct (trusted_root_never_None (demo_env false false) 3 (fresh (Some ∅)) eq_refl)
    as (Hsome & _ & _).
  split; [|exact Hsome].
  apply (Hret (root_doc 1 true) (after_no_cache (fresh (Some ∅))) ConnectionError);
    reflexivity.
Defined.

(** ** [enabled] *)

Lemma enabled_first E fuel s :
  memo_enabled s = None ->
  enabled E fuel s =
    match enabled_body E (trusted_root E fuel) (key_mgr E fuel) s with
    | Return b s' => Return b (set_memo_enabled b s')
    | o => o
    end.
Proof. intros H. unfold enabled. by rewrite H. Qed.

(** Each disabling condition alone makes the body return [False]. *)
Lemma enabled_body_disabled E tr km s :
  extra_safety_checks E = false \/ url_base_defined E = false \/
  conda_content_trust_importable E = false ->
  exists s', enabled_body E tr km s = Return false s'.
Proof.
  unfold enabled_body. intros H.
  destruct (extra_safety_checks E); [|by eexists].
  destruct (url_base_defined E); [|by eexists].
  destruct (conda_content_trust_importable E); [|by eexists].
  by destruct H as [?|[?|?]].
Qed.

Lemma enabled_body_root_None E tr km s s2 :
  tr (ensure_av_data_dir s) = Return JNull s2 ->
  exists s', enabled_body E tr km s = Return false s'.
Proof.
  unfold enabled_body. intros H.
  destruct (extra_safety_checks E); [|by eexists].
  destruct (url_base_defined E); [|by eexists].
  destruct (conda_content_trust_importable E); [|by eexists].
  rewrite H. by eexists.
Qed.

Lemma enabled_body_key_mgr_None E tr km s root s2 s3 :
  tr (ensure_av_data_dir s) = Return root s2 ->
  km s2 = Return JNull s3 ->
  exists s', enabled_body E tr km s = Return false s'.
Proof.
  unfold enabled_body. intros Hroot Hkm.
  destruct (extra_safety_checks E); [|by eexists].
  destruct (url_base_defined E); [|by eexists].
  destruct (conda_content_trust_importable E); [|by eexists].
  rewrite Hroot. destruct (is_None root); [by eexists|].
  rewrite Hkm. by eexists.
Qed.

Lemma enabled_body_true E tr km s s' :
  enabled_body E tr km s = Return true s' ->
  extra_safety_checks E = true /\ url_base_defined E = true /\
  conda_content_trust_importable E = true /\
  exists root s2 kmd,
    tr (ensure_av_data_dir s) = Return root s2 /\ is_None root = false /\
    km s2 = Return kmd s' /\ is_None kmd = false.
Proof.
  unfold enabled_body.
  destruct (extra_safety_checks E); [|done].
  destruct (url_base_defined E); [|done].
  destruct (conda_content_trust_importable E); [|done].
  cbn [negb].
  destruct (tr (ensure_av_data_dir s)) as [root s2|e s2|]; [|done..].
  destruct (is_None root) eqn:Hroot; [done|].
  destruct (km s2) as [kmd s3|e s3|] eqn:Hkm; [|done..].
  destruct (is_None kmd) eqn:Hkmd; [done|].
  intros [= <-]. repeat split; try done. by exists root, s2, kmd.
Qed.

(** C4, as the code has it. Evaluated for the first time, [enabled] returns
    [False], and does not raise, when the extra safety checks are off, when
    the signing URL base is [None] or empty, when conda-content-trust cannot
    be imported, and when [key_mgr] returns [None]; and it returns [True]
    only when the three settings hold and both [trusted_root] and [key_mgr]
    returned something other than [None]. *)
Theorem enabled_false_unless_all_checks_pass E fuel s :
  memo_enabled s = None ->
  (extra_safety_checks E = false -> exists s', enabled E fuel s = Return false s') /\
  (signing_metadata_url_base E = None \/ signing_metadata_url_base E = Some "" ->
     exists s', enabled E fuel s = Return false s') /\
  (conda_content_trust_importable E = false ->
     exists s', enabled E fuel s = Return false s') /\
  (forall root s2 s3,
     trusted_root E fuel (ensure_av_data_dir s) = Return root s2 ->
     key_mgr E fuel s2 = Return JNull s3 ->
     exists s', enabled E fuel s = Return false s') /\
  (forall s', enabled E fuel s = Return true s' ->
     extra_safety_checks E = true /\
     (exists u, signing_metadata_url_base E = Some u /\ u <> "") /\
     conda_content_trust_importable E = true /\
     exists root s2 kmd s3,
       trusted_root E fuel (ensure_av_data_dir s) = Return root s2 /\
       root <> JNull /\
       key_mgr E fuel s2 = Return kmd s3 /\ kmd <> JNull).
Proof.
  intros Hmemo. rewrite (enabled_first E fuel s Hmemo).
  assert (extra_safety_checks E = false \/ url_base_defined E = false \/
          conda_content_trust_importable E = false ->
          exists s',
            match enabled_body E (trusted_root E fuel) (key_mgr E fuel) s with
            | Return b s1 => Return b (set_memo_enabled b s1)
            | o => o
            end = Return false s') as Hdisabled.
  { intros H.
    destruct (enabled_body_disabled E (trusted_root E fuel) (key_mgr E fuel) s H)
      as [s' ->]. eauto. }
  split; [|split; [|split; [|split]]].
  - auto.
  - intros Hurl. apply url_base_defined_false in Hurl. auto.
  - auto.
  - intros root s2 s3 Hroot Hkm.
    destruct (enabled_body_key_mgr_None E _ _ s root s2 s3 Hroot Hkm) as [s' ->].
    eauto.
  - intros s' H.
    destruct (enabled_body E _ _ s) as [b s1|e s1|] eqn:Hbody; [|done..].
    injection H as -> <-.
    apply enabled_body_true in Hbody
      as (? & Hurl & ? & root & s2 & kmd & ? & Hroot & ? & Hkmd).
    apply url_base_defined_true in Hurl.
    apply is_None_false in Hroot, Hkmd.
    repeat split; try done. by exists root, s2, kmd, s1.
Qed.

Lemma enabled_false_unless_all_checks_pass_witness :
  (exists s', enabled (demo_env_with false (Some "https://repo.example/sigs") true) 3
                (fresh None) = Return false s') /\
  (exists s', enabled (demo_env_with true None true) 3 (fresh None) = Return false s') /\
  (exists s', enabled (demo_env_with true (Some "") true) 3 (fresh None)
                = Return false s') /\
  (exists s', enabled (demo_env_with true (Some "https://repo.example/sigs") false) 3
                (fresh None) = Return false s') /\
  (exists s', enabled (demo_env false true) 1 (fresh None) = Return false s') /\
  (exists s' root s2 kmd s3,
     enabled (demo_env false false) 3 (fresh None) = Return true s' /\
     trusted_root (demo_env false false) 3 (ensure_av_data_dir (fresh None))
       = Return root s2 /\
     root <> JNull /\
     key_mgr (demo_env false false) 3 s2 = Return kmd s3 /\ kmd <> JNull).
Proof.
  destruct (enabled_false_unless_all_checks_pass
              (demo_env_with false (Some "https://repo.example/sigs") true) 3
              (fresh None) eq_refl) as (Hchecks & _).
  destruct (enabled_false_unless_all_checks_pass
              (demo_env_with true None true) 3 (fresh None) eq_refl)
    as (_ & Hnone & _).
  destruct (enabled_false_unless_all_checks_pass
              (demo_env_with true (Some "") true) 3 (fresh None) eq_refl)
    as (_ & Hempty & _).
  destruct (enabled_false_unless_all_checks_pass
              (demo_env_with true (Some "https://repo.example/sigs") false) 3
              (fresh None) eq_refl) as (_ & _ & Himport & _).
  destruct (enabled_false_unless_all_checks_pass (demo_env false true) 1
              (fresh None) eq_refl) as (_ & _ & _ & Hkm & _).
  destruct (enabled_false_unless_all_checks_pass (demo_env false false) 3
              (fresh None) eq_refl) as (_ & _ & _ & _ & Htrue).
  split; [apply Hchecks; reflexivity|].
  split; [apply Hnone; left; reflexivity|].
  split; [apply Hempty; right; reflexivity|].
  split; [apply Himport; reflexivity|].
  split; [eapply Hkm; vm_compute; reflexivity|].
  destruct (enabled (demo_env false false) 3 (fresh None)) as [[|] s'| |] eqn:Hen;
    [|vm_compute in Hen; discriminate..].
  destruct (Htrue s' eq_refl) as (_ & _ & _ & root & s2 & kmd & s3 & ? & ? & ? & ?).
  by exists s', root, s2, kmd, s3.
Defined.

(** A cached [1.root.json] that holds the empty object, all settings on:
    root resolution fails, and [enabled] raises the [KeyError] of
    [trusted['signed']] instead of returning [False], whatever the fuel. *)
Lemma enabled_raises_when_root_resolution_fails :
  (exists s',
     enabled (demo_env false false) 1 (fresh (Some {["1.root.json" := JObj []]}))
       = Raise KeyError s') /\
  ~ (exists fuel b s',
       enabled (demo_env false false) fuel
         (fresh (Some {["1.root.json" := JObj []]})) = Return b s').
Proof.
  split.
  - eexists. vm_compute. reflexivity.
  - intros (fuel & b & s' & H). destruct fuel as [|fuel]; vm_compute in H; discriminate.
Qed.

(** ** [key_mgr] *)

Lemma key_mgr_first E fuel s :
  memo_key_mgr s = None ->
  key_mgr E fuel s =
    match key_mgr_body E fuel s with
    | Return d s' => Return d (set_memo_key_mgr d s')
    | o => o
    end.
Proof. intros H. unfold key_mgr. by rewrite H. Qed.

(** The fallback with nothing obtained: the copy on disk, or [None]. *)
Lemma key_mgr_fallback_None E s :
  key_mgr_fallback E JNull s =
    match lookup_file (KEY_MGR_FILE E) s with
    | Some d => Return d (emit (EvLoad (KEY_MGR_FILE E)) s)
    | None => Return JNull s
    end.
Proof.
  unfold key_mgr_fallback, file_exists, load_metadata_from_file.
  by destruct (lookup_file (KEY_MGR_FILE E) s).
Qed.

(** The fallback after the fetched document was written: that document. *)
Lemma key_mgr_fallback_written E u s :
  lookup_file (KEY_MGR_FILE E) s = Some u ->
  exists s', key_mgr_fallback E u s = Return u s' /\
             av_dir s' = av_dir s /\ writes (trace s') = writes (trace s).
Proof.
  intros Hu. unfold key_mgr_fallback, file_exists, load_metadata_from_file.
  rewrite Hu. destruct (truthy u); cbn [negb andb].
  - by eexists.
  - eexists. split; [done|]. split; [done|]. cbn [trace emit].
    by rewrite writes_app, app_nil_r.
Qed.

(** The two [except] clauses of [key_mgr] tell the builtin [ConnectionError]
    and [HTTPError] from every other exception. *)
Lemma is_connection_or_http_error_true e :
  is_connection_or_http_error e = true <->
  e = ConnectionError \/ exists status_code, e = HTTPError status_code.
Proof.
  destruct e; cbn; split; try done; eauto.
  - intros [?|[? ?]]; done.
  - intros [?|[? ?]]; done.
  - intros [?|[? ?]]; done.
  - intros [?|[? ?]]; done.
  - intros [?|[? ?]]; done.
  - intros [?|[? ?]]; done.
Qed.

(** Evaluated for the first time, [key_mgr]:
    - when the fetch raises the builtin [ConnectionError] or [HTTPError],
      warns and returns the [key_mgr.json] of the directory as it is,
      whatever [verify_delegation] would say of it, or [None] when there is
      no such file; it writes nothing;
    - when the fetch succeeds and [verify_delegation] accepts the document
      for the role ["key_mgr"] against the trusted root, writes the document
      under that name and returns it;
    - when the fetch or the verification raises anything else, raises it. *)
Lemma key_mgr_fetch_outcomes E fuel s :
  memo_key_mgr s = None ->
  (forall e,
     fetched E (requests s) (KEY_MGR_FILE E) = Err e ->
     e = ConnectionError \/ (exists status_code, e = HTTPError status_code) ->
     exists s',
       key_mgr E fuel s
         = Return (default JNull (lookup_file (KEY_MGR_FILE E) s)) s' /\
       trace s' =
         (trace s ++ EvGet (KEY_MGR_FILE E) :: EvLog Warn (MsgExn e)
            :: match lookup_file (KEY_MGR_FILE E) s with
               | Some _ => [EvLoad (KEY_MGR_FILE E)]
               | None => []
               end)%list /\
       av_dir s' = av_dir s) /\
  (forall u root s2,
     fetched E (requests s) (KEY_MGR_FILE E) = Ok u ->
     trusted_root E fuel (after_fetch (KEY_MGR_FILE E) s) = Return root s2 ->
     verify_delegation E "key_mgr" u root = None ->
     is_Some (av_dir s2) ->
     exists s',
       key_mgr E fuel s = Return u s' /\
       lookup_file (KEY_MGR_FILE E) s' = Some u /\
       writes (trace s') = (writes (trace s2) ++ [(KEY_MGR_FILE E, u)])%list) /\
  (forall e,
     fetched E (requests s) (KEY_MGR_FILE E) = Err e ->
     e <> ConnectionError -> (forall status_code, e <> HTTPError status_code) ->
     key_mgr E fuel s = Raise e (after_fetch (KEY_MGR_FILE E) s)) /\
  (forall u root s2 e,
     fetched E (requests s) (KEY_MGR_FILE E) = Ok u ->
     trusted_root E fuel (after_fetch (KEY_MGR_FILE E) s) = Return root s2 ->
     verify_delegation E "key_mgr" u root = Some e ->
     e <> ConnectionError -> (forall status_code, e <> HTTPError status_code) ->
     key_mgr E fuel s = Raise e s2).
Proof.
  intros Hmemo. rewrite (key_mgr_first E fuel s Hmemo).
  unfold key_mgr_body. rewrite fetch_unfold.
  assert (forall e, e <> ConnectionError ->
                    (forall status_code, e <> HTTPError status_code) ->
                    is_connection_or_http_error e = false) as Hother.
  { intros e ? ?. destruct (is_connection_or_http_error e) eqn:He; [|done].
    apply is_connection_or_http_error_true in He as [?|[? ?]]; naive_solver. }
  split; [|split; [|split]].
  - intros e -> He%is_connection_or_http_error_true.
    unfold key_mgr_except. rewrite He, key_mgr_fallback_None.
    change (lookup_file (KEY_MGR_FILE E)
              (log Warn (MsgExn e) (after_fetch (KEY_MGR_FILE E) s)))
      with (lookup_file (KEY_MGR_FILE E) s).
    destruct (lookup_file (KEY_MGR_FILE E) s) as [d|]; eexists; (split; [done|]);
      split; try done; cbn [trace set_memo_key_mgr emit log after_fetch count_request];
      by rewrite <- !app_assoc.
  - intros u root s2 -> -> -> Hdir. rewrite write_Some by done.
    destruct (key_mgr_fallback_written E u
                (after_write u (KEY_MGR_FILE E) s2)) as (s' & -> & Hav & Hw).
    { rewrite after_write_lookup by done. by rewrite decide_True. }
    eexists. split; [done|]. split.
    + unfold lookup_file. cbn [av_dir set_memo_key_mgr]. rewrite Hav.
      change (lookup_file (KEY_MGR_FILE E) (after_write u (KEY_MGR_FILE E) s2) = Some u).
      rewrite after_write_lookup by done. by rewrite decide_True.
    + cbn [trace set_memo_key_mgr]. rewrite Hw, after_write_trace by done.
      by rewrite writes_app.
  - intros e -> He1 He2. unfold key_mgr_except. by rewrite (Hother e He1 He2).
  - intros u root s2 e -> -> -> He1 He2. unfold key_mgr_except.
    by rewrite (Hother e He1 He2).
Qed.

(** C5. The signing server cannot be reached, [session.get] raises the
    connection error of the HTTP library, and a [key_mgr.json] is in the
    directory.  [key_mgr] does not fall back to that file: it raises the
    error, having logged nothing, and so does [enabled].  Had the builtin
    [ConnectionError] been raised, the same call would have warned and
    returned the file. *)
Theorem key_mgr_reraises_requests_connection_error :
  (exists s',
     key_mgr (unreachable_env requests_ConnectionError) 1
       (fresh (Some {["key_mgr.json" := key_mgr_doc "k0"]}))
     = Raise requests_ConnectionError s' /\
     trace s' = [EvGet "key_mgr.json"]) /\
  (exists s',
     enabled (unreachable_env requests_ConnectionError) 1
       (fresh (Some {["key_mgr.json" := key_mgr_doc "k0"]}))
     = Raise requests_ConnectionError s') /\
  (exists s',
     key_mgr (unreachable_env ConnectionError) 1
       (fresh (Some {["key_mgr.json" := key_mgr_doc "k0"]}))
     = Return (key_mgr_doc "k0") s' /\
     trace s' = [EvGet "key_mgr.json"; EvLog Warn (MsgExn ConnectionError);
                 EvLoad "key_mgr.json"]).
Proof.
  split; [|split].
  - eexists. split; vm_compute; reflexivity.
  - eexists. vm_compute. reflexivity.
  - eexists. split; vm_compute; reflexivity.
Qed.

(** ** [__call__] *)

(** C6. [__call__] leaves [info] as it is when [enabled] is [False] or [fn]
    has no entry in [signatures].  Otherwise, with the envelope built and
    [key_mgr] at hand: when [verify_delegation] accepts the envelope for the
    role ["pkg_mgr"] it sets the trusted status; when it raises
    [SignatureError] the call warns, sets the failed status and returns; any
    other exception of the verification is raised to the caller as it is. *)
Theorem call_sets_status E fuel info fn signatures s :
  (forall en s1,
     enabled E fuel s = Return en s1 ->
     en = false \/ signatures !! fn = None ->
     __call__ E fuel info fn signatures s = Return info s1) /\
  (forall s1 sigs wrapped envelope km s2,
     enabled E fuel s = Return true s1 ->
     signatures !! fn = Some sigs ->
     wrap_as_signable E info = Ok wrapped ->
     setitem wrapped "signatures" sigs = Ok envelope ->
     key_mgr E fuel s1 = Return km s2 ->
     (verify_delegation E "pkg_mgr" envelope km = None ->
        __call__ E fuel info fn signatures s
          = Return (<[status_key := JStr status_trusted]> info) s2) /\
     (verify_delegation E "pkg_mgr" envelope km = Some SignatureError ->
        __call__ E fuel info fn signatures s
          = Return (<[status_key := JStr status_failed]> info)
                   (log Warn (Msg ("invalid signature for " +:+ fn)) s2)) /\
     (forall e,
        verify_delegation E "pkg_mgr" envelope km = Some e ->
        e <> SignatureError ->
        __call__ E fuel info fn signatures s = Raise e s2)).
Proof.
  split.
  - intros en s1 Hen Hno. unfold __call__. rewrite Hen.
    destruct Hno as [-> | ->]; [done|]. by destruct en.
  - intros s1 sigs wrapped envelope km s2 Hen Hsig Hwrap Hset Hkm.
    unfold __call__. rewrite Hen, Hsig, Hwrap, Hset, Hkm.
    split; [|split].
    + by intros ->.
    + by intros ->.
    + intros e -> Hne. by destruct e.
Qed.

(** One call with a signed entry, one whose signature set is empty. *)
Lemma call_sets_status_witness :
  (exists s',
     __call__ (demo_env false false) 3 {["name" := JStr "foo"]} "foo.tar.bz2"
       {["foo.tar.bz2" := JObj [("key", JStr "sig")]]} (fresh None)
     = Return (<[status_key := JStr status_trusted]> {["name" := JStr "foo"]}) s') /\
  (exists s',
     __call__ (demo_env false false) 3 {["name" := JStr "foo"]} "foo.tar.bz2"
       {["foo.tar.bz2" := JObj []]} (fresh None)
     = Return (<[status_key := JStr status_failed]> {["name" := JStr "foo"]}) s').
Proof.
  split.
  - destruct (call_sets_status (demo_env false false) 3 {["name" := JStr "foo"]}
                "foo.tar.bz2" {["foo.tar.bz2" := JObj [("key", JStr "sig")]]}
                (fresh None)) as [_ Hon].
    edestruct Hon as (Hok & _).
    + vm_compute. reflexivity.
    + reflexivity.
    + reflexivity.
    + reflexivity.
    + vm_compute. reflexivity.
    + eexists. apply Hok. reflexivity.
  - destruct (call_sets_status (demo_env false false) 3 {["name" := JStr "foo"]}
                "foo.tar.bz2" {["foo.tar.bz2" := JObj []]}
                (fresh None)) as [_ Hon].
    edestruct Hon as (_ & Hbad & _).
    + vm_compute. reflexivity.
    + reflexivity.
    + reflexivity.
    + reflexivity.
    + vm_compute. reflexivity.
    + eexists. apply Hbad. reflexivity.
Defined.

(** C10. Whenever [__call__] returns, the dictionary it leaves is [info]
    itself or [info] with the key [metadata_signature_status] set to one of
    the two status strings; every other key has the value it had. *)
Theorem call_writes_only_the_status_key E fuel info fn signatures s info' s' :
  __call__ E fuel info fn signatures s = Return info' s' ->
  (info' = info \/
   info' = <[status_key := JStr status_trusted]> info \/
   info' = <[status_key := JStr status_failed]> info) /\
  (forall k, k <> status_key -> info' !! k = info !! k).
Proof.
  intros Hcall.
  assert (info' = info \/
          info' = <[status_key := JStr status_trusted]> info \/
          info' = <[status_key := JStr status_failed]> info) as Hcases.
  { revert Hcall. unfold __call__.
    destruct (enabled E fuel s) as [en s1|e s1|]; [|done..].
    destruct (if en then signatures !! fn else None) as [sigs|];
      [|intros [= <- <-]; by left].
    destruct (wrap_as_signable E info) as [wrapped|e]; [|done].
    destruct (setitem wrapped "signatures" sigs) as [envelope|e]; [|done].
    destruct (key_mgr E fuel s1) as [km s2|e s2|]; [| |done].
    - destruct (verify_delegation E "pkg_mgr" envelope km) as [e|].
      + destruct e; try done. intros [= <- <-]. by right; right.
      + intros [= <- <-]. by right; left.
    - destruct e; try done. intros [= <- <-]. by right; right. }
  split; [done|]. intros k Hk.
  destruct Hcases as [->|[->| ->]]; [done|by rewrite lookup_insert_ne..].
Qed.

Lemma call_writes_only_the_status_key_witness :
  (<[status_key := JStr status_trusted]> ({["name" := JStr "foo"]} : gmap string json))
    !! "name" = ({["name" := JStr "foo"]} : gmap string json) !! "name".
Proof.
  refine (proj2 (call_writes_only_the_status_key (demo_env false false) 3
                   {["name" := JStr "foo"]} "foo.tar.bz2"
                   {["foo.tar.bz2" := JObj [("key", JStr "sig")]]} (fresh None)
                   _ _ _) "name" _).
  - vm_compute. reflexivity.
  - discriminate.
Defined.

(** ** Memoization *)

(** The state a call leaves, when it ends. *)
Definition final_state {A : Type} (o : outcome A) : option state :=
  match o with
  | Return _ s | Raise _ s => Some s
  | OutOfFuel => None
  end.

Definition memos (s : state) : option bool * option json * option json :=
  (memo_enabled s, memo_trusted_root s, memo_key_mgr s).

(** A memo cell that is filled keeps its value. *)
Definition memo_kept (s s' : state) : Prop :=
  (forall b, memo_enabled s = Some b -> memo_enabled s' = Some b) /\
  (forall d, memo_trusted_root s = Some d -> memo_trusted_root s' = Some d) /\
  (forall d, memo_key_mgr s = Some d -> memo_key_mgr s' = Some d).

Lemma memo_kept_same s s' : memos s' = memos s -> memo_kept s s'.
Proof. unfold memos, memo_kept. intros [= -> -> ->]. done. Qed.

Lemma memo_kept_refl s : memo_kept s s.
Proof. by apply memo_kept_same. Qed.

Lemma memo_kept_trans s1 s2 s3 : memo_kept s1 s2 -> memo_kept s2 s3 -> memo_kept s1 s3.
Proof.
  intros (He & Hr & Hk) (He' & Hr' & Hk'). repeat split; auto.
Qed.

Lemma write_memos d name s : memos (write_metadata_to_file d name s).2 = memos s.
Proof. unfold write_metadata_to_file. by destruct (av_dir s). Qed.

Lemma refresh_stop_memos e s : memos (refresh_stop e s) = memos s.
Proof. destruct e as [st| | | | | | |]; try done. simpl. by destruct (st =? 404). Qed.

Lemma refresh_memos E fuel : forall d s s',
  final_state (refresh E fuel d s) = Some s' -> memos s' = memos s.
Proof.
  induction fuel as [|fuel IH]; intros d s s'; [done|].
  cbn [refresh]. destruct (next_version d) as [v|e]; [|by intros [= <-]].
  rewrite fetch_unfold.
  destruct (fetched E (requests s) (root_fname v)) as [u|e].
  - destruct (verify_root E d u).
    + intros [= <-]. by rewrite refresh_stop_memos.
    + pose proof (write_memos u (root_fname v) (after_fetch (root_fname v) s)) as Hw.
      destruct (write_metadata_to_file u (root_fname v) _) as [[[]|e] s2];
        cbn [snd] in Hw.
      * intros Hf%IH. by rewrite Hf, Hw.
      * intros [= <-]. by rewrite Hw.
  - intros [= <-]. by rewrite refresh_stop_memos.
Qed.

Lemma load_current_memos E s s' :
  final_state (load_current E s) = Some s' -> memos s' = memos s.
Proof.
  unfold load_current, load_metadata_from_file.
  destruct (first_int_prefixed _) as [name|].
  - destruct (lookup_file name _); by intros [= <-].
  - by intros [= <-].
Qed.

Lemma trusted_root_body_memos E fuel s s' :
  final_state (trusted_root_body E fuel s) = Some s' -> memos s' = memos s.
Proof.
  unfold trusted_root_body.
  destruct (load_current E s) as [d s1|e s1|] eqn:Hload; [| |done].
  - intros Hf%refresh_memos. rewrite Hf. apply (load_current_memos E). by rewrite Hload.
  - intros [= <-]. apply (load_current_memos E). by rewrite Hload.
Qed.

Lemma trusted_root_kept E fuel s s' :
  final_state (trusted_root E fuel s) = Some s' -> memo_kept s s'.
Proof.
  unfold trusted_root. destruct (memo_trusted_root s) as [d|] eqn:Hmemo.
  - intros [= <-]. apply memo_kept_refl.
  - pose proof (trusted_root_body_memos E fuel s) as Hbody.
    destruct (trusted_root_body E fuel s) as [d s1|e s1|]; [| |done].
    + intros [= <-]. specialize (Hbody s1 eq_refl). unfold memos in Hbody.
      injection Hbody as He Hr Hk. unfold memo_kept. cbn. rewrite He, Hk, Hmemo. done.
    + intros [= <-]. by apply memo_kept_same, Hbody.
Qed.

Lemma key_mgr_fallback_memos E d s s' :
  final_state (key_mgr_fallback E d s) = Some s' -> memos s' = memos s.
Proof.
  unfold key_mgr_fallback, load_metadata_from_file.
  destruct (negb (truthy d) && file_exists (KEY_MGR_FILE E) s); [|by intros [= <-]].
  destruct (lookup_file (KEY_MGR_FILE E) s); by intros [= <-].
Qed.

Lemma key_mgr_except_memos E e s s' :
  final_state (key_mgr_except E e s) = Some s' -> memos s' = memos s.
Proof.
  unfold key_mgr_except. destruct (is_connection_or_http_error e).
  - by intros ->%key_mgr_fallback_memos.
  - by intros [= <-].
Qed.

Lemma key_mgr_body_kept E fuel s s' :
  final_state (key_mgr_body E fuel s) = Some s' -> memo_kept s s'.
Proof.
  unfold key_mgr_body. rewrite fetch_unfold.
  destruct (fetched E (requests s) (KEY_MGR_FILE E)) as [u|e].
  - pose proof (trusted_root_kept E fuel (after_fetch (KEY_MGR_FILE E) s)) as Hroot.
    destruct (trusted_root E fuel _) as [root s2|e s2|]; [| |done].
    + specialize (Hroot s2 eq_refl).
      destruct (verify_delegation E "key_mgr" u root) as [e|].
      * intros Hf%key_mgr_except_memos.
        eapply memo_kept_trans; [exact Hroot|by apply memo_kept_same].
      * pose proof (write_memos u (KEY_MGR_FILE E) s2) as Hw.
        destruct (write_metadata_to_file u (KEY_MGR_FILE E) s2) as [[[]|e] s3];
          cbn [snd] in Hw.
        -- intros Hf%key_mgr_fallback_memos.
           eapply memo_kept_trans; [exact Hroot|]. apply memo_kept_same.
           by rewrite Hf, Hw.
        -- intros [= <-]. eapply memo_kept_trans; [exact Hroot|].
           by apply memo_kept_same.
    + specialize (Hroot s2 eq_refl). intros Hf%key_mgr_except_memos.
      eapply memo_kept_trans; [exact Hroot|by apply memo_kept_same].
  - intros Hf%key_mgr_except_memos. by apply memo_kept_same.
Qed.

Lemma key_mgr_kept E fuel s s' :
  final_state (key_mgr E fuel s) = Some s' -> memo_kept s s'.
Proof.
  unfold key_mgr. destruct (memo_key_mgr s) as [d|] eqn:Hmemo.
  - intros [= <-]. apply memo_kept_refl.
  - pose proof (key_mgr_body_kept E fuel s) as Hbody.
    destruct (key_mgr_body E fuel s) as [d s1|e s1|]; [| |done].
    + intros [= <-]. destruct (Hbody s1 eq_refl) as (He & Hr & Hk).
      repeat split; [exact He|exact Hr|]. intros d'. by rewrite Hmemo.
    + intros [= <-]. by apply Hbody.
Qed.

Lemma ensure_av_data_dir_memos s : memos (ensure_av_data_dir s) = memos s.
Proof. unfold ensure_av_data_dir. by destruct (av_dir s). Qed.

Lemma enabled_body_kept E fuel s s' :
  final_state (enabled_body E (trusted_root E fuel) (key_mgr E fuel) s) = Some s' ->
  memo_kept s s'.
Proof.
  unfold enabled_body.
  destruct (extra_safety_checks E); [|intros [= <-]; apply memo_kept_refl].
  destruct (url_base_defined E); [|intros [= <-]; by apply memo_kept_same].
  destruct (conda_content_trust_importable E); [|intros [= <-]; by apply memo_kept_same].
  cbn [negb].
  pose proof (trusted_root_kept E fuel (ensure_av_data_dir s)) as Hroot.
  pose proof (memo_kept_same _ _ (ensure_av_data_dir_memos s)) as Hdir.
  destruct (trusted_root E fuel _) as [root s2|e s2|]; [| |done].
  - specialize (Hroot s2 eq_refl).
    assert (memo_kept s s2) as Hs2 by by eapply memo_kept_trans.
    destruct (is_None root).
    { intros [= <-]. eapply memo_kept_trans; [exact Hs2|by apply memo_kept_same]. }
    pose proof (key_mgr_kept E fuel s2) as Hkm.
    destruct (key_mgr E fuel s2) as [km s3|e s3|]; [| |done].
    + specialize (Hkm s3 eq_refl).
      assert (memo_kept s s3) as Hs3 by by eapply memo_kept_trans.
      destruct (is_None km); intros [= <-]; [|done].
      eapply memo_kept_trans; [exact Hs3|by apply memo_kept_same].
    + intros [= <-]. eapply memo_kept_trans; [exact Hs2|by apply Hkm].
  - intros [= <-]. eapply memo_kept_trans; [exact Hdir|by apply Hroot].
Qed.

Lemma enabled_kept E fuel s s' :
  final_state (enabled E fuel s) = Some s' -> memo_kept s s'.
Proof.
  unfold enabled. destruct (memo_enabled s) as [b|] eqn:Hmemo.
  - intros [= <-]. apply memo_kept_refl.
  - pose proof (enabled_body_kept E fuel s) as Hbody.
    destruct (enabled_body E _ _ s) as [b s1|e s1|]; [| |done].
    + intros [= <-]. destruct (Hbody s1 eq_refl) as (He & Hr & Hk).
      repeat split; [|exact Hr|exact Hk]. intros b'. by rewrite Hmemo.
    + intros [= <-]. by apply Hbody.
Qed.

Lemma call_except_memos info fn e s s' :
  final_state (call_except info fn e s) = Some s' -> memos s' = memos s.
Proof. destruct e; by intros [= <-]. Qed.

Lemma call_kept E fuel info fn signatures s s' :
  final_state (__call__ E fuel info fn signatures s) = Some s' -> memo_kept s s'.
Proof.
  unfold __call__. pose proof (enabled_kept E fuel s) as Hen.
  destruct (enabled E fuel s) as [en s1|e s1|]; [| |done].
  - specialize (Hen s1 eq_refl).
    destruct (if en then signatures !! fn else None) as [sigs|]; [|by intros [= <-]].
    destruct (wrap_as_signable E info) as [wrapped|e]; [|by intros [= <-]].
    destruct (setitem wrapped "signatures" sigs) as [envelope|e]; [|by intros [= <-]].
    pose proof (key_mgr_kept E fuel s1) as Hkm.
    destruct (key_mgr E fuel s1) as [km s2|e s2|]; [| |done].
    + specialize (Hkm s2 eq_refl).
      assert (memo_kept s s2) as Hs2 by by eapply memo_kept_trans.
      destruct (verify_delegation E "pkg_mgr" envelope km) as [e|].
      * intros Hf%call_except_memos.
        eapply memo_kept_trans; [exact Hs2|by apply memo_kept_same].
      * by intros [= <-].
    + specialize (Hkm s2 eq_refl).
      assert (memo_kept s s2) as Hs2 by by eapply memo_kept_trans.
      intros Hf%call_except_memos.
      eapply memo_kept_trans; [exact Hs2|by apply memo_kept_same].
  - intros [= <-]. by apply Hen.
Qed.

(** What the process may do between two uses of a property. *)
Inductive call : Type :=
| CallEnabled
| CallTrustedRoot
| CallKeyMgr
| CallVerify (info : gmap string json) (fn : string) (signatures : gmap string json).

Definition run_call (E : env) (fuel : nat) (c : call) (s : state) : option state :=
  match c with
  | CallEnabled => final_state (enabled E fuel s)
  | CallTrustedRoot => final_state (trusted_root E fuel s)
  | CallKeyMgr => final_state (key_mgr E fuel s)
  | CallVerify info fn signatures => final_state (__call__ E fuel info fn signatures s)
  end.

(** A sequence of calls, each with its fuel, every one of which ends (it
    returns, or raises and the caller carries on). *)
Fixpoint run_calls (E : env) (cs : list (nat * call)) (s : state) : option state :=
  match cs with
  | [] => Some s
  | (fuel, c) :: cs' =>
      match run_call E fuel c s with
      | Some s' => run_calls E cs' s'
      | None => None
      end
  end.

Lemma run_call_kept E fuel c s s' : run_call E fuel c s = Some s' -> memo_kept s s'.
Proof.
  destruct c; cbn [run_call];
    eauto using enabled_kept, trusted_root_kept, key_mgr_kept, call_kept.
Qed.

Lemma run_calls_kept E cs : forall s s', run_calls E cs s = Some s' -> memo_kept s s'.
Proof.
  induction cs as [|[fuel c] cs IH]; intros s s'; cbn [run_calls].
  - intros [= <-]. apply memo_kept_refl.
  - destruct (run_call E fuel c s) as [s1|] eqn:Hc; [|done].
    intros Hcs. eapply memo_kept_trans; eauto using run_call_kept.
Qed.


Lemma trusted_root_memoizes E fuel s d s' :
  trusted_root E fuel s = Return d s' -> memo_trusted_root s' = Some d.
Proof.
  unfold trusted_root. destruct (memo_trusted_root s) as [d0|] eqn:Hmemo.
  - by intros [= <- <-].
  - destruct (trusted_root_body E fuel s) as [d1 s1|e s1|]; [|done..].
    by intros [= <- <-].
Qed.

Lemma key_mgr_memoizes E fuel s d s' :
  key_mgr E fuel s = Return d s' -> memo_key_mgr s' = Some d.
Proof.
  unfold key_mgr. destruct (memo_key_mgr s) as [d0|] eqn:Hmemo.
  - by intros [= <- <-].
  - destruct (key_mgr_body E fuel s) as [d1 s1|e s1|]; [|done..]. by intros [= <- <-].
Qed.



(** * Further properties *)

(** ** The names the refresh writes are the names the scan reads *)

Fixpoint all_digits (s : string) : bool :=
  match s with
  | EmptyString => true
  | String c r => is_digit c && all_digits r
  end.

(** The number a string of digits denotes, after the digits read so far. *)
Fixpoint digits_value (acc : Z) (s : string) : Z :=
  match s with
  | EmptyString => acc
  | String c r => digits_value (10 * acc + digit_val c) r
  end.

Lemma string_app_nil_r (s : string) : s +:+ "" = s.
Proof.
  induction s as [|c s IH]; [done|].
  change (String c s +:+ "") with (String c (s +:+ "")). by rewrite IH.
Qed.

Lemma string_app_assoc (s t u : string) : (s +:+ t) +:+ u = s +:+ (t +:+ u).
Proof.
  induction s as [|c s IH]; [done|].
  change (String c ((s +:+ t) +:+ u) = String c (s +:+ (t +:+ u))). by rewrite IH.
Qed.

Lemma all_digits_snoc p c :
  all_digits (p +:+ String c "") = all_digits p && is_digit c.
Proof.
  induction p as [|c' p IH].
  - change (is_digit c && true = is_digit c). by rewrite andb_true_r.
  - change (is_digit c' && all_digits (p +:+ String c "")
            = is_digit c' && all_digits p && is_digit c).
    by rewrite IH, andb_assoc.
Qed.

Lemma digits_value_snoc p : forall acc c,
  digits_value acc (p +:+ String c "") = 10 * digits_value acc p + digit_val c.
Proof.
  induction p as [|c' p IH]; intros acc c; [done|].
  change (digits_value (10 * acc + digit_val c') (p +:+ String c "")
          = 10 * digits_value (10 * acc + digit_val c') p + digit_val c).
  apply IH.
Qed.

Lemma pretty_N_char_digit d : is_digit (pretty_N_char d) = true.
Proof. unfold pretty_N_char. by repeat case_match. Qed.

Lemma pretty_N_char_val d : (d < 10)%N -> digit_val (pretty_N_char d) = Z.of_N d.
Proof.
  intros Hd.
  assert (d = 0 \/ d = 1 \/ d = 2 \/ d = 3 \/ d = 4 \/ d = 5 \/ d = 6 \/ d = 7
          \/ d = 8 \/ d = 9)%N as Hcases by lia.
  destruct Hcases as [->|[->|[->|[->|[->|[->|[->|[->|[->| ->]]]]]]]]]; reflexivity.
Qed.

(** The decimal digits [pretty] puts in front of what it is given. *)
Lemma pretty_N_go_digits x : forall s,
  exists p, pretty_N_go x s = p +:+ s /\ all_digits p = true /\
            digits_value 0 p = Z.of_N x /\ ((0 < x)%N -> p <> "").
Proof.
  induction (N.lt_wf_0 x) as [x _ IH]. intros s.
  destruct (decide (x = 0%N)) as [->|Hx].
  - exists "". split; [done|]. split; [done|]. split; [done|]. lia.
  - assert (0 < x)%N as Hpos by lia.
    rewrite pretty_N_go_step by done.
    destruct (IH (x `div` 10)%N (N.div_lt x 10 Hpos eq_refl)
                (String (pretty_N_char (x `mod` 10)) s))
      as (p & -> & Hp & Hval & _).
    exists (p +:+ String (pretty_N_char (x `mod` 10)) "").
    split; [by rewrite string_app_assoc|]. split; [|split].
    + by rewrite all_digits_snoc, Hp, pretty_N_char_digit.
    + rewrite digits_value_snoc, Hval, pretty_N_char_val
        by (by apply N.mod_lt).
      rewrite (N.div_mod x 10) at 3 by done. lia.
    + intros _. by destruct p.
Qed.

Lemma pretty_nonneg_digits v :
  0 <= v ->
  exists p, pretty v = p /\ all_digits p = true /\ digits_value 0 p = v /\ p <> "".
Proof.
  intros Hv. destruct v as [|x|x]; [|..|lia].
  - by exists "0".
  - destruct (pretty_N_go_digits (N.pos x) "") as (p & Hp & Hd & Hval & Hne).
    exists p. rewrite string_app_nil_r in Hp.
    split; [exact Hp|]. split; [done|]. split; [done|]. by apply Hne.
Qed.

Lemma is_digit_not_dot c : is_digit c = true -> Ascii.eqb c "." = false.
Proof. destruct c as [[] [] [] [] [] [] [] []]; done. Qed.

Lemma split_dot_head_digits p rest :
  all_digits p = true -> split_dot_head (p +:+ String "." rest) = p.
Proof.
  induction p as [|c p IH]; [done|].
  change (String c p +:+ String "." rest) with (String c (p +:+ String "." rest)).
  cbn [all_digits split_dot_head]. intros [Hc Hp]%andb_true_iff.
  by rewrite (is_digit_not_dot c Hc), IH.
Qed.

Lemma int_digits_all_digits p : forall acc,
  all_digits p = true -> int_digits PDigit acc p = Some (digits_value acc p).
Proof.
  induction p as [|c p IH]; intros acc; [done|].
  cbn [all_digits int_digits digits_value]. intros [-> Hp]%andb_true_iff.
  by apply IH.
Qed.

Lemma py_int_digit_first c r :
  is_digit c = true -> py_int (String c r) = int_digits PNone 0 (String c r).
Proof. destruct c as [[] [] [] [] [] [] [] []]; done. Qed.

Lemma py_int_digits p :
  all_digits p = true -> p <> "" -> py_int p = Some (digits_value 0 p).
Proof.
  destruct p as [|c p]; [done|]. intros Hall _.
  pose proof Hall as [Hc Hp]%andb_true_iff.
  rewrite py_int_digit_first by done. cbn [int_digits digits_value]. rewrite Hc.
  by apply int_digits_all_digits.
Qed.

Lemma substring_whole t : substring 0 (String.length t) t = t.
Proof. induction t as [|c t IH]; [done|]. simpl. by rewrite IH. Qed.

Lemma substring_app_tail r t :
  substring (String.length r) (String.length t) (r +:+ t) = t.
Proof.
  induction r as [|c r IH]; [apply substring_whole|].
  change (String c r +:+ t) with (String c (r +:+ t)). simpl. exact IH.
Qed.

Lemma ends_with_app r t : ends_with t (r +:+ t) = true.
Proof.
  unfold ends_with. rewrite string_length_app.
  replace (String.length r + String.length t - String.length t)%nat
    with (String.length r) by lia.
  rewrite substring_app_tail, String.eqb_refl, andb_true_r.
  apply Nat.leb_le. lia.
Qed.

Lemma root_fname_usable v :
  0 <= v ->
  glob_match (root_fname v) = true /\
  py_int (split_dot_head (root_fname v)) = Some v.
Proof.
  intros Hv. unfold root_fname.
  destruct (pretty_nonneg_digits v Hv) as (p & -> & Hd & Hval & Hne).
  split.
  - destruct p as [|c p]; [done|].
    change (String c p +:+ ".root.json") with (String c (p +:+ ".root.json")).
    cbn [glob_match]. apply andb_true_iff in Hd as [-> _].
    apply ends_with_app.
  - rewrite split_dot_head_digits by done. rewrite py_int_digits by done.
    by rewrite Hval.
Qed.

(** X3. The name [trusted_root] writes a root of a version [v >= 0] under
    matches the pattern of the scan, and the prefix the scan cuts off it
    parses back to [v]; the name of a negative version does not match the
    pattern, so such a file is never read back. *)
Theorem root_fname_round_trip v :
  (0 <= v ->
     glob_match (root_fname v) = true /\
     py_int (split_dot_head (root_fname v)) = Some v) /\
  (v < 0 -> glob_match (root_fname v) = false).
Proof.
  split; [apply root_fname_usable|].
  intros Hv. destruct v as [|x|x]; [lia..|]. reflexivity.
Qed.

Lemma root_fname_round_trip_witness :
  glob_match (root_fname 2024) = true /\
  py_int (split_dot_head (root_fname 2024)) = Some 2024.
Proof. apply (root_fname_round_trip 2024). lia. Defined.

(** ** The shape of a refresh *)

(** A fetch and the write of what it brought, file after file. *)
Fixpoint adopt_events (ws : list (string * json)) : list event :=
  match ws with
  | [] => []
  | (name, u) :: ws' => EvGet name :: EvWrite name u :: adopt_events ws'
  end.

Lemma writes_adopt_events ws : writes (adopt_events ws) = ws.
Proof. induction ws as [|[name u] ws IH]; [done|]. cbn. by rewrite IH. Qed.

(** X2. Whatever the server and [verify_root] answer, a refresh that returns
    has done this and nothing else: for each file it wrote, one request for
    that very name right before the write; then one last request, the one
    that failed (by an exception of the fetch, or of [verify_root] against
    the document returned); and one error entry in the log for that failure
    unless it is an [HTTPError] of status 404.  So it issued exactly one
    request more than it wrote files. *)
Theorem refresh_trace_shape E fuel : forall d s r s',
  refresh E fuel d s = Return r s' ->
  exists ws name e,
    trace s' = (trace s ++ adopt_events ws ++ EvGet name :: stop_events e)%list /\
    requests s' = (requests s + S (List.length ws))%nat /\
    (fetched E (requests s + List.length ws) name = Err e \/
     exists u, fetched E (requests s + List.length ws) name = Ok u /\
               verify_root E r u = Some e).
Proof.
  induction fuel as [|fuel IH]; intros d s r s'; [done|].
  cbn [refresh]. destruct (next_version d) as [v|e] eqn:Hv; [|done].
  rewrite fetch_unfold.
  assert (forall e, exists s1,
            refresh_stop e (after_fetch (root_fname v) s) = s1 /\
            trace s1 = (trace s ++ adopt_events [] ++ EvGet (root_fname v)
                          :: stop_events e)%list /\
            requests s1 = (requests s + 1)%nat) as Hstop.
  { intros e. eexists. split; [done|]. rewrite refresh_stop_trace.
    destruct (refresh_stop_frame e (after_fetch (root_fname v) s)) as (_ & -> & _).
    unfold after_fetch, emit; cbn [trace requests count_request adopt_events app].
    split; [by rewrite <- app_assoc|lia]. }
  destruct (fetched E (requests s) (root_fname v)) as [u|e] eqn:Hf.
  - destruct (verify_root E d u) as [e|] eqn:Hver.
    + intros [= <- <-]. destruct (Hstop e) as (s1 & -> & Htr & Hreq).
      exists [], (root_fname v), e. cbn [List.length]. rewrite Nat.add_0_r.
      split; [done|]. split; [done|]. right. eauto.
    + unfold write_metadata_to_file.
      destruct (av_dir (after_fetch (root_fname v) s)) as [files|]; [|done].
      intros Hrec.
      destruct (IH _ _ _ _ Hrec) as (ws & name & e & Htr & Hreq & He).
      cbn [requests trace emit set_av_dir after_fetch count_request] in Htr, Hreq, He.
      exists ((root_fname v, u) :: ws), name, e. cbn [adopt_events List.length].
      split; [|split].
      * rewrite Htr. by rewrite <- !app_assoc.
      * rewrite Hreq. lia.
      * by replace (requests s + S (List.length ws))%nat
          with (S (requests s) + List.length ws)%nat by lia.
  - intros [= <- <-]. destruct (Hstop e) as (s1 & -> & Htr & Hreq).
    exists [], (root_fname v), e. cbn [List.length]. rewrite Nat.add_0_r.
    split; [done|]. split; [done|]. by left.
Qed.

(** The server has roots 2 and 3; the walk from root 1 makes three requests. *)
Lemma refresh_trace_shape_witness :
  exists s' ws name e,
    refresh (demo_env false false) 5 (root_doc 1 true) (fresh (Some ∅))
      = Return (root_doc 3 true) s' /\
    trace s' = (adopt_events ws ++ EvGet name :: stop_events e)%list /\
    requests s' = S (List.length ws).
Proof.
  destruct (refresh (demo_env false false) 5 (root_doc 1 true) (fresh (Some ∅)))
    as [r s'|e s'|] eqn:Hrun; [|vm_compute in Hrun; discriminate..].
  assert (r = root_doc 3 true) as ->.
  { pose proof Hrun as Hrun'. vm_compute in Hrun'. by injection Hrun' as <- _. }
  destruct (refresh_trace_shape _ _ _ _ _ _ Hrun) as (ws & name & e & Htr & Hreq & _).
  exists s', ws, name, e. split; [reflexivity|]. split; [exact Htr|exact Hreq].
Defined.

(** ** A new process over the directory an earlier one left *)

(** What a later process starts with: the directory, and nothing else. *)
Definition restart (s : state) : state := fresh (av_dir s).

Lemma load_current_loads_cached E s v d :
  0 <= v ->
  lookup_file (root_fname v) s = Some d ->
  exists name d',
    load_current E s
      = Return d' (emit (EvLoad name) (log Info (loading_msg name) (emit EvGlob s))) /\
    lookup_file name s = Some d' /\
    glob_match name = true /\ is_Some (py_int (split_dot_head name)) /\
    String.le (root_fname v) name.
Proof.
  intros Hv Hd. destruct (root_fname_usable v Hv) as [Hm Hint].
  assert (root_fname v ∈ sorted_reverse (glob_root_json s)) as Hin.
  { apply sorted_reverse_elem, glob_root_json_elem. split; [done|]. by eexists. }
  destruct (first_int_prefixed (sorted_reverse (glob_root_json s))) as [name|] eqn:Hfirst.
  - destruct (first_int_prefixed_Some _ _ Hfirst)
      as [[Hm' [d' Hd']]%sorted_reverse_elem%glob_root_json_elem Hint'].
    exists name, d'. split; [|split; [done|split; [done|split; [done|]]]].
    + unfold load_current, load_metadata_from_file.
      change (glob_root_json (emit EvGlob s)) with (glob_root_json s). rewrite Hfirst.
      change (lookup_file name (log Info (loading_msg name) (emit EvGlob s)))
        with (lookup_file name s). by rewrite Hd'.
    + eapply first_int_prefixed_greatest;
        [apply sorted_reverse_descending|exact Hfirst|done|].
      rewrite Hint. by eexists.
  - exfalso. pose proof (proj1 (first_int_prefixed_None _) Hfirst _ Hin) as Hnone.
    congruence.
Qed.

(** X4. Once the directory holds a root under the name of a version
    [v >= 0], as the refresh writes it, [trusted_root] does not start from
    the built-in root: its first phase loads a document of the directory,
    stored under a name that is not below that of [v] in the order of
    strings; it issues no request and changes no file. *)
Theorem load_current_uses_written_root E s v d :
  0 <= v ->
  lookup_file (root_fname v) s = Some d ->
  exists name d' s',
    load_current E s = Return d' s' /\
    lookup_file name s = Some d' /\
    String.le (root_fname v) name /\
    trace s' = (trace s ++ [EvGlob; EvLog Info (loading_msg name); EvLoad name])%list /\
    requests s' = requests s /\ av_dir s' = av_dir s.
Proof.
  intros Hv Hd.
  destruct (load_current_loads_cached E s v d Hv Hd)
    as (name & d' & Hload & Hfile & _ & _ & Hle).
  exists name, d'. eexists. split; [exact Hload|]. split; [done|]. split; [done|].
  split; [|done]. cbn [trace emit log]. by rewrite <- !app_assoc.
Qed.

Lemma load_current_uses_written_root_witness :
  exists name d' s',
    load_current (demo_env false false)
      (fresh (Some {["7.root.json" := root_doc 7 true]})) = Return d' s' /\
    lookup_file name (fresh (Some {["7.root.json" := root_doc 7 true]})) = Some d' /\
    String.le "7.root.json" name.
Proof.
  destruct (load_current_uses_written_root (demo_env false false)
              (fresh (Some {["7.root.json" := root_doc 7 true]})) 7 (root_doc 7 true))
    as (name & d' & s' & Hload & Hfile & Hle & _).
  - lia.
  - reflexivity.
  - exists name, d', s'. split; [exact Hload|]. split; [exact Hfile|exact Hle].
Defined.

(** ** What every step of the class preserves *)

(** A relation between the state before and after that is reflexive and
    transitive and holds of each elementary step (a trace entry, a counted
    request, a write, the directory made when missing, a memo cell filled)
    holds of every call that ends. *)
Section Frame.
Variable R : state -> state -> Prop.
Hypothesis R_refl : forall s, R s s.
Hypothesis R_trans : forall s1 s2 s3, R s1 s2 -> R s2 s3 -> R s1 s3.
Hypothesis R_emit : forall e s, R s (emit e s).
Hypothesis R_count : forall s, R s (count_request s).
Hypothesis R_write : forall d name s, R s (write_metadata_to_file d name s).2.
Hypothesis R_ensure : forall s, R s (ensure_av_data_dir s).
Hypothesis R_memo_enabled : forall b s, R s (set_memo_enabled b s).
Hypothesis R_memo_trusted_root : forall d s, R s (set_memo_trusted_root d s).
Hypothesis R_memo_key_mgr : forall d s, R s (set_memo_key_mgr d s).

Lemma frame_after_fetch name s : R s (after_fetch name s).
Proof. unfold after_fetch. eauto. Qed.

Lemma frame_refresh_stop e s : R s (refresh_stop e s).
Proof.
  destruct e as [st| | | | | | |]; cbn [refresh_stop]; unfold log; eauto.
  destruct (st =? 404); eauto.
Qed.

Lemma frame_refresh E fuel : forall d s s',
  final_state (refresh E fuel d s) = Some s' -> R s s'.
Proof.
  induction fuel as [|fuel IH]; intros d s s'; [done|].
  cbn [refresh]. destruct (next_version d) as [v|e]; [|intros [= <-]; eauto].
  rewrite fetch_unfold.
  pose proof (frame_after_fetch (root_fname v) s) as Hf.
  destruct (fetched E (requests s) (root_fname v)) as [u|e].
  - destruct (verify_root E d u).
    + intros [= <-]. eauto using frame_refresh_stop.
    + pose proof (R_write u (root_fname v) (after_fetch (root_fname v) s)) as Hw.
      destruct (write_metadata_to_file u (root_fname v) _) as [[[]|e] s2];
        cbn [snd] in Hw.
      * intros Hrec%IH. eauto.
      * intros [= <-]. eauto.
  - intros [= <-]. eauto using frame_refresh_stop.
Qed.

Lemma frame_load_current E s s' :
  final_state (load_current E s) = Some s' -> R s s'.
Proof.
  unfold load_current, load_metadata_from_file, log.
  destruct (first_int_prefixed _) as [name|].
  - destruct (lookup_file name _); intros [= <-]; eauto.
  - intros [= <-]. eauto.
Qed.

Lemma frame_trusted_root E fuel s s' :
  final_state (trusted_root E fuel s) = Some s' -> R s s'.
Proof.
  unfold trusted_root, trusted_root_body.
  destruct (memo_trusted_root s); [intros [= <-]; eauto|].
  pose proof (frame_load_current E s) as Hload.
  destruct (load_current E s) as [d s1|e s1|]; [| |done].
  - specialize (Hload s1 eq_refl).
    pose proof (frame_refresh E fuel d s1) as Href.
    destruct (refresh E fuel d s1) as [r s2|e s2|]; [| |done];
      intros [= <-]; eauto.
  - intros [= <-]. eauto.
Qed.

Lemma frame_key_mgr_fallback E d s s' :
  final_state (key_mgr_fallback E d s) = Some s' -> R s s'.
Proof.
  unfold key_mgr_fallback, load_metadata_from_file.
  destruct (negb (truthy d) && file_exists (KEY_MGR_FILE E) s); [|intros [= <-]; eauto].
  destruct (lookup_file (KEY_MGR_FILE E) s); intros [= <-]; eauto.
Qed.

Lemma frame_key_mgr_except E e s s' :
  final_state (key_mgr_except E e s) = Some s' -> R s s'.
Proof.
  unfold key_mgr_except, log. destruct (is_connection_or_http_error e).
  - intros H%frame_key_mgr_fallback. eauto.
  - intros [= <-]. eauto.
Qed.

Lemma frame_key_mgr E fuel s s' :
  final_state (key_mgr E fuel s) = Some s' -> R s s'.
Proof.
  unfold key_mgr, key_mgr_body.
  destruct (memo_key_mgr s); [intros [= <-]; eauto|].
  rewrite fetch_unfold.
  pose proof (frame_after_fetch (KEY_MGR_FILE E) s) as Hf.
  assert (forall e s1 s2, R s s1 ->
            final_state (match key_mgr_except E e s1 with
                         | Return d s3 => Return d (set_memo_key_mgr d s3)
                         | o => o
                         end) = Some s2 -> R s s2) as Hexc.
  { intros e s1 s2 Hs1. pose proof (frame_key_mgr_except E e s1) as He.
    destruct (key_mgr_except E e s1) as [d s3|e' s3|]; [| |done];
      intros [= <-]; eauto. }
  destruct (fetched E (requests s) (KEY_MGR_FILE E)) as [u|e]; [|by apply Hexc].
  pose proof (frame_trusted_root E fuel (after_fetch (KEY_MGR_FILE E) s)) as Hroot.
  destruct (trusted_root E fuel _) as [root s2|e s2|]; [| |done].
  - specialize (Hroot s2 eq_refl).
    destruct (verify_delegation E "key_mgr" u root) as [e|]; [apply Hexc; eauto|].
    pose proof (R_write u (KEY_MGR_FILE E) s2) as Hw.
    destruct (write_metadata_to_file u (KEY_MGR_FILE E) s2) as [[[]|e] s3];
      cbn [snd] in Hw.
    + pose proof (frame_key_mgr_fallback E u s3) as Hfb.
      destruct (key_mgr_fallback E u s3) as [d s4|e s4|]; [| |done];
        intros [= <-]; eauto 6.
    + intros [= <-]. eauto.
  - specialize (Hroot s2 eq_refl). apply Hexc. eauto.
Qed.

Lemma frame_enabled E fuel s s' :
  final_state (enabled E fuel s) = Some s' -> R s s'.
Proof.
  unfold enabled, enabled_body, log.
  destruct (memo_enabled s); [intros [= <-]; eauto|].
  destruct (extra_safety_checks E); [|intros [= <-]; eauto].
  destruct (url_base_defined E); [|intros [= <-]; eauto].
  destruct (conda_content_trust_importable E); [|intros [= <-]; eauto].
  cbn [negb].
  pose proof (R_ensure s) as Hdir.
  pose proof (frame_trusted_root E fuel (ensure_av_data_dir s)) as Hroot.
  destruct (trusted_root E fuel _) as [root s2|e s2|]; [| |done].
  - specialize (Hroot s2 eq_refl).
    destruct (is_None root); [intros [= <-]; eauto 6|].
    pose proof (frame_key_mgr E fuel s2) as Hkm.
    destruct (key_mgr E fuel s2) as [km s3|e s3|]; [| |done].
    + specialize (Hkm s3 eq_refl).
      destruct (is_None km); intros [= <-]; eauto 7.
    + intros [= <-]. eauto 6.
  - intros [= <-]. eauto.
Qed.

Lemma frame_call E fuel info fn signatures s s' :
  final_state (__call__ E fuel info fn signatures s) = Some s' -> R s s'.
Proof.
  unfold __call__.
  pose proof (frame_enabled E fuel s) as Hen.
  destruct (enabled E fuel s) as [en s1|e s1|]; [| |done].
  - specialize (Hen s1 eq_refl).
    destruct (if en then signatures !! fn else None) as [sigs|]; [|by intros [= <-]].
    destruct (wrap_as_signable E info) as [wrapped|e]; [|by intros [= <-]].
    destruct (setitem wrapped "signatures" sigs) as [envelope|e]; [|by intros [= <-]].
    pose proof (frame_key_mgr E fuel s1) as Hkm.
    assert (forall e s2 s3, R s s2 ->
              final_state (call_except info fn e s2) = Some s3 -> R s s3) as Hexc.
    { intros e s2 s3 Hs2. unfold call_except, log.
      destruct e; intros [= <-]; eauto. }
    destruct (key_mgr E fuel s1) as [km s2|e s2|]; [| |done].
    + specialize (Hkm s2 eq_refl).
      destruct (verify_delegation E "pkg_mgr" envelope km) as [e|].
      * apply Hexc. eauto.
      * intros [= <-]. eauto.
    + specialize (Hkm s2 eq_refl). apply Hexc. eauto.
  - intros [= <-]. by apply Hen.
Qed.

Lemma frame_run_calls E cs : forall s s', run_calls E cs s = Some s' -> R s s'.
Proof.
  induction cs as [|[fuel c] cs IH]; intros s s'; cbn [run_calls].
  - intros [= <-]. eauto.
  - destruct (run_call E fuel c s) as [s1|] eqn:Hc; [|done].
    intros Hcs%IH. apply (R_trans _ s1); [|done].
    destruct c; cbn [run_call] in Hc;
      eauto using frame_enabled, frame_trusted_root, frame_key_mgr, frame_call.
Qed.
End Frame.

(** ** Files are never removed *)

Definition files_kept (s s' : state) : Prop :=
  (is_Some (av_dir s) -> is_Some (av_dir s')) /\
  (forall name, is_Some (lookup_file name s) -> is_Some (lookup_file name s')).

Lemma files_kept_same s s' : av_dir s' = av_dir s -> files_kept s s'.
Proof. intros H. unfold files_kept, lookup_file. by rewrite H. Qed.

Lemma files_kept_trans s1 s2 s3 :
  files_kept s1 s2 -> files_kept s2 s3 -> files_kept s1 s3.
Proof. intros [Hd Hf] [Hd' Hf']. split; auto. Qed.

Lemma files_kept_write d name s : files_kept s (write_metadata_to_file d name s).2.
Proof.
  unfold write_metadata_to_file, files_kept, lookup_file.
  destruct (av_dir s) as [files|]; cbn; [|done].
  split; [by eexists|]. intros name' Hn.
  destruct (decide (name = name')) as [->|Hne].
  - rewrite lookup_insert_eq. by eexists.
  - by rewrite lookup_insert_ne.
Qed.

Lemma files_kept_ensure s : files_kept s (ensure_av_data_dir s).
Proof.
  unfold ensure_av_data_dir, files_kept, lookup_file.
  destruct (av_dir s) as [files|] eqn:Hs; [by rewrite Hs|].
  split; [by intros [? ?]|]. by intros name [? ?].
Qed.

(** X5. No call of the class removes a file or the directory: through any
    sequence of calls of the three properties and of [__call__], returning
    or raising, a directory that exists goes on existing and every name
    that holds a document goes on holding one. *)
Theorem calls_never_remove_files E cs s s' :
  run_calls E cs s = Some s' ->
  (is_Some (av_dir s) -> is_Some (av_dir s')) /\
  (forall name, is_Some (lookup_file name s) -> is_Some (lookup_file name s')).
Proof.
  apply (frame_run_calls files_kept).
  - intros s0. by apply files_kept_same.
  - apply files_kept_trans.
  - intros e s0. by apply files_kept_same.
  - intros s0. by apply files_kept_same.
  - apply files_kept_write.
  - apply files_kept_ensure.
  - intros b s0. by apply files_kept_same.
  - intros d s0. by apply files_kept_same.
  - intros d s0. by apply files_kept_same.
Qed.

(** A cached root and a key manager on disk survive a failed refresh and two
    verifications. *)
Lemma calls_never_remove_files_witness :
  exists s',
    run_calls (demo_env true false)
      [(3%nat, CallEnabled);
       (3%nat, CallVerify {["name" := JStr "foo"]} "foo.tar.bz2"
                 {["foo.tar.bz2" := JObj []]});
       (3%nat, CallTrustedRoot)]
      (fresh (Some {["1.root.json" := root_doc 1 true]})) = Some s' /\
    is_Some (lookup_file "1.root.json" s').
Proof.
  destruct (run_calls (demo_env true false)
      [(3%nat, CallEnabled);
       (3%nat, CallVerify {["name" := JStr "foo"]} "foo.tar.bz2"
                 {["foo.tar.bz2" := JObj []]});
       (3%nat, CallTrustedRoot)]
      (fresh (Some {["1.root.json" := root_doc 1 true]}))) as [s'|] eqn:Hrun;
    [|vm_compute in Hrun; discriminate].
  exists s'. split; [reflexivity|].
  apply (proj2 (calls_never_remove_files _ _ _ _ Hrun) "1.root.json").
  by eexists.
Defined.

(** ** Verification switched off *)

(** X6. With the extra safety checks off, or no signing URL base, or
    conda-content-trust missing, and [enabled] not memoized as [True],
    [__call__] returns with [info] as it was and has touched neither the
    server nor the directory: no request, no scan, no load, no write, and no
    root or key manager resolved. *)
Theorem call_is_inert_when_disabled E fuel info fn signatures s :
  memo_enabled s <> Some true ->
  extra_safety_checks E = false \/ url_base_defined E = false \/
  conda_content_trust_importable E = false ->
  exists s',
    __call__ E fuel info fn signatures s = Return info s' /\
    memo_enabled s' = Some false /\
    av_dir s' = av_dir s /\ requests s' = requests s /\
    memo_trusted_root s' = memo_trusted_root s /\
    memo_key_mgr s' = memo_key_mgr s /\
    (trace s' = trace s \/ exists m, trace s' = (trace s ++ [EvLog Warn m])%list).
Proof.
  intros Hmemo Hoff. unfold __call__, enabled.
  destruct (memo_enabled s) as [[]|] eqn:Hm; [done| |].
  - exists s. repeat split; try done. by left.
  - unfold enabled_body.
    destruct (extra_safety_checks E).
    2:{ eexists. split; [done|]. repeat split; try done. by left. }
    destruct (url_base_defined E).
    2:{ eexists. split; [done|]. repeat split; try done. right. by eexists. }
    destruct (conda_content_trust_importable E).
    2:{ eexists. split; [done|]. repeat split; try done. right. by eexists. }
    by destruct Hoff as [?|[?|?]].
Qed.

Lemma call_is_inert_when_disabled_witness :
  exists s',
    __call__ (mkEnv false (Some "https://repo.example/sigs") true (root_doc 1 true)
                "key_mgr.json" (demo_server false false) demo_verify_root
                demo_verify_delegation demo_wrap_as_signable)
      3 {["name" := JStr "foo"]} "foo.tar.bz2"
      {["foo.tar.bz2" := JObj [("key", JStr "sig")]]} (fresh None)
    = Return {["name" := JStr "foo"]} s' /\
    requests s' = 0%nat /\ av_dir s' = None.
Proof.
  destruct (call_is_inert_when_disabled
              (mkEnv false (Some "https://repo.example/sigs") true (root_doc 1 true)
                 "key_mgr.json" (demo_server false false) demo_verify_root
                 demo_verify_delegation demo_wrap_as_signable)
              3 {["name" := JStr "foo"]} "foo.tar.bz2"
              {["foo.tar.bz2" := JObj [("key", JStr "sig")]]} (fresh None))
    as (s' & Hcall & _ & Hdir & Hreq & _).
  - discriminate.
  - by left.
  - exists s'. split; [exact Hcall|]. split; [exact Hreq|exact Hdir].
Defined.

(** ** Verifying packages once [enabled] is [True] *)

Lemma enabled_true_fills_key_mgr E fuel s0 s1 :
  memo_enabled s0 = None ->
  enabled E fuel s0 = Return true s1 ->
  memo_enabled s1 = Some true /\
  exists km, memo_key_mgr s1 = Some km /\ is_None km = false.
Proof.
  intros Hmemo. rewrite (enabled_first E fuel s0 Hmemo).
  destruct (enabled_body E _ _ s0) as [b s'|e s'|] eqn:Hbody; [|done..].
  intros [= -> <-]. split; [done|].
  apply enabled_body_true in Hbody as (_ & _ & _ & root & s2 & km & _ & _ & Hkm & Hn).
  exists km. split; [|done]. cbn. by eapply key_mgr_memoizes.
Qed.

(** X8. Once a first evaluation of [enabled] has returned [True], every
    later [__call__], whatever ran in between and whatever its fuel, ends
    without a request, a scan or a write: it leaves the state as it found
    it, but for the one warning it logs when the signature is refused.  The
    status it sets is decided by [verify_delegation] on the memoized key
    manager alone. *)
Theorem call_after_enabled_is_local E fuel s0 s1 cs s2 fuel' info fn signatures :
  memo_enabled s0 = None ->
  enabled E fuel s0 = Return true s1 ->
  run_calls E cs s1 = Some s2 ->
  exists s3,
    final_state (__call__ E fuel' info fn signatures s2) = Some s3 /\
    (s3 = s2 \/ s3 = log Warn (Msg ("invalid signature for " +:+ fn)) s2) /\
    requests s3 = requests s2 /\ av_dir s3 = av_dir s2 /\ memos s3 = memos s2.
Proof.
  intros Hmemo Hen Hrun.
  destruct (enabled_true_fills_key_mgr _ _ _ _ Hmemo Hen) as (He1 & km & Hk1 & _).
  destruct (run_calls_kept _ _ _ _ Hrun) as (He & _ & Hk).
  specialize (He _ He1). specialize (Hk _ Hk1).
  unfold __call__, enabled, key_mgr. rewrite He.
  destruct (signatures !! fn) as [sigs|]; [|exists s2; by auto].
  destruct (wrap_as_signable E info) as [wrapped|e]; [|exists s2; by auto].
  destruct (setitem wrapped "signatures" sigs) as [envelope|e]; [|exists s2; by auto].
  rewrite Hk.
  destruct (verify_delegation E "pkg_mgr" envelope km) as [e|]; [|exists s2; by auto].
  destruct e; cbn [call_except]; eexists; (split; [done|]); auto.
Qed.

Lemma call_after_enabled_is_local_witness :
  exists s1 s3,
    enabled (demo_env false false) 3 (fresh None) = Return true s1 /\
    final_state (__call__ (demo_env false false) 0 {["name" := JStr "foo"]}
                   "foo.tar.bz2" {["foo.tar.bz2" := JObj [("key", JStr "sig")]]} s1)
      = Some s3 /\
    requests s3 = requests s1.
Proof.
  destruct (enabled (demo_env false false) 3 (fresh None)) as [b s1|e s1|] eqn:Hen;
    [|vm_compute in Hen; discriminate..].
  assert (b = true) as ->.
  { pose proof Hen as Hen'. vm_compute in Hen'. by injection Hen' as <- _. }
  destruct (call_after_enabled_is_local (demo_env false false) 3 (fresh None) s1 []
              s1 0 {["name" := JStr "foo"]} "foo.tar.bz2"
              {["foo.tar.bz2" := JObj [("key", JStr "sig")]]} eq_refl Hen eq_refl)
    as (s3 & Hfin & _ & Hreq & _).
  exists s1, s3. split; [reflexivity|]. split; [exact Hfin|exact Hreq].
Defined.

(** ** The key manager across processes *)

Lemma key_mgr_accepts E fuel s u root s2 :
  memo_key_mgr s = None ->
  fetched E (requests s) (KEY_MGR_FILE E) = Ok u ->
  trusted_root E fuel (after_fetch (KEY_MGR_FILE E) s) = Return root s2 ->
  verify_delegation E "key_mgr" u root = None ->
  is_Some (av_dir s2) ->
  exists s', key_mgr E fuel s = Return u s' /\
             lookup_file (KEY_MGR_FILE E) s' = Some u.
Proof.
  intros Hmemo Hf Hroot Hver Hdir. rewrite (key_mgr_first E fuel s Hmemo).
  unfold key_mgr_body. rewrite fetch_unfold, Hf, Hroot, Hver.
  rewrite write_Some by done.
  destruct (key_mgr_fallback_written E u (after_write u (KEY_MGR_FILE E) s2))
    as (s' & -> & Hav & _).
  { rewrite after_write_lookup by done. by rewrite decide_True. }
  eexists. split; [done|]. unfold lookup_file. cbn [av_dir set_memo_key_mgr].
  rewrite Hav.
  change (lookup_file (KEY_MGR_FILE E) (after_write u (KEY_MGR_FILE E) s2) = Some u).
  rewrite after_write_lookup by done. by rewrite decide_True.
Qed.

Lemma key_mgr_offline E fuel s e :
  memo_key_mgr s = None ->
  fetched E (requests s) (KEY_MGR_FILE E) = Err e ->
  is_connection_or_http_error e = true ->
  exists s', key_mgr E fuel s
             = Return (default JNull (lookup_file (KEY_MGR_FILE E) s)) s'.
Proof.
  intros Hmemo Hf He. rewrite (key_mgr_first E fuel s Hmemo).
  unfold key_mgr_body, key_mgr_except. rewrite fetch_unfold, Hf, He.
  rewrite key_mgr_fallback_None.
  change (lookup_file (KEY_MGR_FILE E)
            (log Warn (MsgExn e) (after_fetch (KEY_MGR_FILE E) s)))
    with (lookup_file (KEY_MGR_FILE E) s).
  destruct (lookup_file (KEY_MGR_FILE E) s); by eexists.
Qed.

(** X9. A key manager document that one process fetched, had accepted by
    [verify_delegation] and wrote is the document [key_mgr] returns in a
    later process that finds the same directory and cannot reach the server
    ([ConnectionError] or [HTTPError]), whatever that process runs with as
    [verify_delegation] and as root. *)
Theorem key_mgr_survives_restart E E' fuel fuel' s u root s2 e :
  memo_key_mgr s = None ->
  fetched E (requests s) (KEY_MGR_FILE E) = Ok u ->
  trusted_root E fuel (after_fetch (KEY_MGR_FILE E) s) = Return root s2 ->
  verify_delegation E "key_mgr" u root = None ->
  is_Some (av_dir s2) ->
  KEY_MGR_FILE E' = KEY_MGR_FILE E ->
  fetched E' 0 (KEY_MGR_FILE E') = Err e ->
  is_connection_or_http_error e = true ->
  exists s' s'',
    key_mgr E fuel s = Return u s' /\
    key_mgr E' fuel' (restart s') = Return u s''.
Proof.
  intros Hmemo Hf Hroot Hver Hdir Hkey Hf' He.
  destruct (key_mgr_accepts E fuel s u root s2) as (s' & Hret & Hfile); [done..|].
  destruct (key_mgr_offline E' fuel' (restart s') e) as (s'' & Hret'); [done..|].
  exists s', s''. split; [done|]. rewrite Hret'. f_equal.
  rewrite Hkey. change (lookup_file (KEY_MGR_FILE E) (restart s'))
    with (lookup_file (KEY_MGR_FILE E) s'). by rewrite Hfile.
Qed.

Lemma key_mgr_survives_restart_witness :
  exists s' s'',
    key_mgr (demo_env false false) 3 (fresh (Some ∅)) = Return (key_mgr_doc "k1") s' /\
    key_mgr (demo_env false true) 0 (restart s') = Return (key_mgr_doc "k1") s''.
Proof.
  eapply (key_mgr_survives_restart (demo_env false false) (demo_env false true) 3 0
            (fresh (Some ∅)) (key_mgr_doc "k1") _ _ ConnectionError).
  - reflexivity.
  - reflexivity.
  - vm_compute. reflexivity.
  - reflexivity.
  - vm_compute. by eexists.
  - reflexivity.
  - reflexivity.
  - reflexivity.
Defined.

(** ** When the order of names is the order of versions *)

Fixpoint pow10 (n : nat) : Z :=
  match n with
  | O => 1
  | S n' => 10 * pow10 n'
  end.

Lemma pow10_pos n : 0 < pow10 n.
Proof. induction n as [|n IH]; cbn [pow10]; lia. Qed.

Lemma digits_value_acc p : forall acc,
  digits_value acc p = acc * pow10 (String.length p) + digits_value 0 p.
Proof.
  induction p as [|c p IH]; intros acc; cbn [digits_value String.length pow10]; [lia|].
  rewrite (IH (10 * acc + digit_val c)), (IH (10 * 0 + digit_val c)). ring.
Qed.

Lemma is_digit_val c : is_digit c = true -> 0 <= digit_val c <= 9.
Proof.
  unfold is_digit, digit_val. intros [H1 H2]%andb_true_iff.
  apply Nat.leb_le in H1, H2. lia.
Qed.

Lemma digits_value_bound p :
  all_digits p = true -> 0 <= digits_value 0 p < pow10 (String.length p).
Proof.
  induction p as [|c p IH]; cbn [all_digits digits_value String.length pow10]; [lia|].
  intros [Hc Hp]%andb_true_iff. rewrite digits_value_acc.
  pose proof (is_digit_val c Hc). pose proof (IH Hp). pose proof (pow10_pos (String.length p)).
  nia.
Qed.

Lemma ascii_compare_digit_val c c' :
  Ascii.compare c c' = (digit_val c ?= digit_val c').
Proof.
  unfold Ascii.compare, digit_val, nat_of_ascii. rewrite !N_nat_Z.
  rewrite <- N2Z.inj_compare.
  destruct (Z.compare_spec (Z.of_N (N_of_ascii c)) (Z.of_N (N_of_ascii c')));
    symmetry.
  - apply Z.compare_eq_iff. lia.
  - apply Z.compare_lt_iff. lia.
  - apply Z.compare_gt_iff. lia.
Qed.

Lemma string_compare_refl t : String.compare t t = Eq.
Proof.
  induction t as [|c t IH]; [done|]. cbn [String.compare].
  unfold Ascii.compare. by rewrite N.compare_refl.
Qed.

(** Strings of digits of one length, followed by the same text, compare as
    the numbers they denote. *)
Lemma digits_compare p : forall q t,
  all_digits p = true -> all_digits q = true ->
  String.length p = String.length q ->
  String.compare (p +:+ t) (q +:+ t) = (digits_value 0 p ?= digits_value 0 q).
Proof.
  induction p as [|c p IH]; intros [|c' q] t Hp Hq Hlen; try done.
  - apply string_compare_refl.
  - change (String.compare (String c (p +:+ t)) (String c' (q +:+ t))
            = (digits_value 0 (String c p) ?= digits_value 0 (String c' q))).
    cbn [all_digits] in Hp, Hq.
    apply andb_true_iff in Hp as [Hc Hp]. apply andb_true_iff in Hq as [Hc' Hq].
    injection Hlen as Hlen.
    cbn [String.compare digits_value].
    rewrite (digits_value_acc p), (digits_value_acc q), <- Hlen.
    rewrite ascii_compare_digit_val, (IH q t Hp Hq Hlen).
    pose proof (is_digit_val c Hc). pose proof (is_digit_val c' Hc').
    pose proof (digits_value_bound p Hp) as Bp.
    pose proof (digits_value_bound q Hq) as Bq. rewrite <- Hlen in Bq.
    pose proof (pow10_pos (String.length p)).
    destruct (Z.compare_spec (digit_val c) (digit_val c')) as [Heq|Hlt|Hgt].
    + rewrite Heq.
      destruct (Z.compare_spec (digits_value 0 p) (digits_value 0 q)); symmetry.
      * apply Z.compare_eq_iff. lia.
      * apply Z.compare_lt_iff. lia.
      * apply Z.compare_gt_iff. lia.
    + symmetry. apply Z.compare_lt_iff. nia.
    + symmetry. apply Z.compare_gt_iff. nia.
Qed.

Lemma root_fname_le a b :
  0 <= a -> 0 <= b ->
  String.length (pretty a) = String.length (pretty b) ->
  (String.le (root_fname a) (root_fname b) <-> a <= b).
Proof.
  intros Ha Hb Hlen. unfold root_fname.
  destruct (pretty_nonneg_digits a Ha) as (p & Hpa & Hp & Hva & _).
  destruct (pretty_nonneg_digits b Hb) as (q & Hqb & Hq & Hvb & _).
  rewrite Hpa, Hqb in *. unfold String.le, String.leb.
  rewrite (digits_compare p q ".root.json" Hp Hq Hlen), Hva, Hvb.
  destruct (Z.compare_spec a b); cbn; split; try done; lia.
Qed.

(** X10. For versions [a, b >= 0] written with the same number of decimal
    digits, the name of [a] is at or below the name of [b] in the order of
    strings exactly when [a <= b]: among such files the sorted scan ranks
    the higher version first. *)
Theorem root_fname_order_equal_width a b :
  0 <= a -> 0 <= b ->
  String.length (pretty a) = String.length (pretty b) ->
  (String.le (root_fname a) (root_fname b) <-> a <= b).
Proof. apply root_fname_le. Qed.

Lemma root_fname_order_equal_width_witness :
  String.le (root_fname 128) (root_fname 130) <-> 128 <= 130.
Proof. apply (root_fname_order_equal_width 128 130); [lia|lia|reflexivity]. Defined.


(** X11. When the usable names of the directory are those of versions
    [0 <= j <= v] written with as many digits as [v], and the file of [v] is
    there, the first phase of [trusted_root] loads the file of [v], the
    highest version, without a request. *)
Theorem load_current_picks_highest_of_equal_width E s v d :
  0 <= v ->
  lookup_file (root_fname v) s = Some d ->
  (forall name,
     glob_match name = true -> is_Some (lookup_file name s) ->
     is_Some (py_int (split_dot_head name)) ->
     exists j, 0 <= j <= v /\
               String.length (pretty j) = String.length (pretty v) /\
               name = root_fname j) ->
  exists s', load_current E s = Return d s' /\ requests s' = requests s.
Proof.
  intros Hv Hd Hnames.
  destruct (load_current_loads_cached E s v d Hv Hd)
    as (name & d' & Hload & Hfile & Hm & Hint & Hle).
  destruct (Hnames name Hm) as (j & Hj & Hlen & ->); [by eexists|done|].
  apply root_fname_le in Hle; [|lia..|done].
  assert (j = v) as -> by lia.
  assert (d' = d) as -> by congruence.
  exists (emit (EvLoad (root_fname v))
            (log Info (loading_msg (root_fname v)) (emit EvGlob s))).
  split; [exact Hload|reflexivity].
Qed.

(** The directory holds the roots 7, 8 and 9 and a stray file. *)
Lemma load_current_picks_highest_of_equal_width_witness :
  exists s',
    load_current (demo_env false false)
      (fresh (Some (<["8.root.json" := root_doc 8 true]>
                      (<["9.root.json" := root_doc 9 true]>
                         (<["7.root.json" := root_doc 7 true]>
                            {["key_mgr.json" := key_mgr_doc "k1"]})))))
    = Return (root_doc 9 true) s'.
Proof.
  destruct (load_current_picks_highest_of_equal_width (demo_env false false)
      (fresh (Some (<["8.root.json" := root_doc 8 true]>
                      (<["9.root.json" := root_doc 9 true]>
                         (<["7.root.json" := root_doc 7 true]>
                            {["key_mgr.json" := key_mgr_doc "k1"]})))))
      9 (root_doc 9 true)) as (s' & Hload & _).
  - lia.
  - reflexivity.
  - intros name Hm [d Hd] _. unfold lookup_file, fresh in Hd. cbn [av_dir] in Hd.
    apply lookup_insert_Some in Hd as [[<- _]|[_ Hd]]; [exists 8; by repeat split|].
    apply lookup_insert_Some in Hd as [[<- _]|[_ Hd]]; [exists 9; by repeat split|].
    apply lookup_insert_Some in Hd as [[<- _]|[_ Hd]]; [exists 7; by repeat split|].
    apply lookup_singleton_Some in Hd as [<- _]. discriminate.
  - by exists s'.
Defined.

(** ** A failure of the key manager resolution *)

Lemma trusted_root_other_memos E fuel s s' :
  final_state (trusted_root E fuel s) = Some s' ->
  memo_enabled s' = memo_enabled s /\ memo_key_mgr s' = memo_key_mgr s.
Proof.
  apply (frame_trusted_root
           (fun s1 s2 => memo_enabled s2 = memo_enabled s1 /\
                         memo_key_mgr s2 = memo_key_mgr s1)); try done.
  - intros s1 s2 s3 [-> ->] [-> ->]. done.
  - intros d name s0. unfold write_metadata_to_file. by destruct (av_dir s0).
Qed.

Lemma key_mgr_raise_memos E fuel s e s' :
  key_mgr E fuel s = Raise e s' ->
  memo_enabled s' = memo_enabled s /\ memo_key_mgr s' = None.
Proof.
  unfold key_mgr. destruct (memo_key_mgr s) eqn:Hmemo; [done|].
  destruct (key_mgr_body E fuel s) as [d s1|e1 s1|] eqn:Hbody; [done| |done].
  intros [= -> ->]. revert Hbody. unfold key_mgr_body. rewrite fetch_unfold.
  assert (forall e0 s1, memo_enabled s1 = memo_enabled s -> memo_key_mgr s1 = None ->
            key_mgr_except E e0 s1 = Raise e s' ->
            memo_enabled s' = memo_enabled s /\ memo_key_mgr s' = None) as Hexc.
  { intros e0 s1 He Hk Hr.
    pose proof (key_mgr_except_memos E e0 s1 s') as Hm. rewrite Hr in Hm.
    specialize (Hm eq_refl). unfold memos in Hm. injection Hm as -> _ ->. done. }
  destruct (fetched E (requests s) (KEY_MGR_FILE E)) as [u|e0]; [|by apply Hexc].
  pose proof (trusted_root_other_memos E fuel (after_fetch (KEY_MGR_FILE E) s)) as Hroot.
  destruct (trusted_root E fuel _) as [root s2|e2 s2|]; [| |done].
  - destruct (Hroot s2 eq_refl) as [He Hk]. cbn in He, Hk. rewrite Hmemo in Hk.
    destruct (verify_delegation E "key_mgr" u root) as [e0|]; [by apply Hexc|].
    pose proof (write_memos u (KEY_MGR_FILE E) s2) as Hw.
    destruct (write_metadata_to_file u (KEY_MGR_FILE E) s2) as [[[]|e0] s3];
      cbn [snd] in Hw.
    + intros Hfb. pose proof (key_mgr_fallback_memos E u s3 s') as Hm.
      rewrite Hfb in Hm. specialize (Hm eq_refl). rewrite Hw in Hm.
      unfold memos in Hm. injection Hm as -> _ ->. done.
    + intros [= -> ->]. unfold memos in Hw. injection Hw as -> _ ->. done.
  - destruct (Hroot s2 eq_refl) as [He Hk]. cbn in He, Hk. rewrite Hmemo in Hk.
    by apply Hexc.
Qed.

(** X12. With the three settings on and nothing memoized, an exception that
    [key_mgr] raises (any but [ConnectionError] and [HTTPError]: a response
    that is no JSON, a delegation that [verify_delegation] refuses) is
    raised by [enabled] and by [__call__] as it is, [__call__] being outside
    its own [try] at that point; neither [enabled] nor [key_mgr] memoizes
    anything, so the next call fetches the key manager again. *)
Theorem key_mgr_failure_escapes_call E fuel info fn signatures s root s2 e s3 :
  memo_enabled s = None ->
  memo_trusted_root s = None ->
  extra_safety_checks E = true ->
  url_base_defined E = true ->
  conda_content_trust_importable E = true ->
  trusted_root E fuel (ensure_av_data_dir s) = Return root s2 ->
  key_mgr E fuel s2 = Raise e s3 ->
  enabled E fuel s = Raise e s3 /\
  __call__ E fuel info fn signatures s = Raise e s3 /\
  memo_enabled s3 = None /\ memo_key_mgr s3 = None /\
  memo_trusted_root s3 = Some root.
Proof.
  intros Hme Hmr Hx Hu Hc Hroot Hkm.
  assert (is_None root = false) as Hnn.
  { revert Hroot. unfold trusted_root.
    assert (memo_trusted_root (ensure_av_data_dir s) = None) as ->.
    { unfold ensure_av_data_dir. by destruct (av_dir s). }
    destruct (trusted_root_body E fuel _) as [r s1|e1 s1|] eqn:Hbody; [|done..].
    intros [= <- <-].
    destruct (trusted_root_body_versioned _ _ _ _ _ Hbody) as [v Hv].
    eauto using version_of_not_None. }
  assert (enabled E fuel s = Raise e s3) as Hen.
  { unfold enabled, enabled_body. by rewrite Hme, Hx, Hu, Hc, Hroot, Hnn, Hkm. }
  split; [done|]. split; [unfold __call__; by rewrite Hen|].
  destruct (key_mgr_raise_memos _ _ _ _ _ Hkm) as [He Hk].
  destruct (trusted_root_other_memos E fuel (ensure_av_data_dir s) s2) as [He2 _].
  { by rewrite Hroot. }
  split; [|split; [done|]].
  - rewrite He, He2. unfold ensure_av_data_dir. by destruct (av_dir s).
  - pose proof (trusted_root_memoizes _ _ _ _ _ Hroot) as Hm.
    destruct (key_mgr_kept E fuel s2 s3) as (_ & Hr & _); [by rewrite Hkm|].
    by apply Hr.
Qed.

(** The server's key manager carries no signature: the demo checker raises
    [SignatureError], and so does [__call__]. *)
Lemma key_mgr_failure_escapes_call_witness :
  exists s3,
    __call__ (mkEnv true (Some "https://repo.example/sigs") true (root_doc 1 true)
                "key_mgr.json"
                (fun _ name =>
                   if String.eqb name "key_mgr.json"
                   then HttpResponse 200 (Some (JObj [("signatures", JObj [])]))
                   else HttpResponse 404 None)
                demo_verify_root demo_verify_delegation demo_wrap_as_signable)
      3 {["name" := JStr "foo"]} "foo.tar.bz2"
      {["foo.tar.bz2" := JObj [("key", JStr "sig")]]} (fresh None)
    = Raise SignatureError s3.
Proof.
  eexists.
  eapply (key_mgr_failure_escapes_call _ 3 _ _ _ (fresh None)).
  - reflexivity.
  - reflexivity.
  - reflexivity.
  - reflexivity.
  - reflexivity.
  - vm_compute. reflexivity.
  - vm_compute. reflexivity.
Defined.

(** ** A second process over a complete cache *)

(** X13. A process that finds in the directory the file of version [v] as
    the highest among usable names of one width, and whose request for the
    version after [v] fails, resolves the trusted root with that one
    request: it returns the cached document of [v] and writes nothing. *)
Theorem trusted_root_over_complete_cache E fuel s v d e :
  memo_trusted_root s = None ->
  0 <= v ->
  lookup_file (root_fname v) s = Some d ->
  (forall name,
     glob_match name = true -> is_Some (lookup_file name s) ->
     is_Some (py_int (split_dot_head name)) ->
     exists j, 0 <= j <= v /\
               String.length (pretty j) = String.length (pretty v) /\
               name = root_fname j) ->
  probe_failure E d (requests s) = Some e ->
  exists s',
    trusted_root E (S fuel) s = Return d s' /\
    requests s' = S (requests s) /\
    av_dir s' = av_dir s /\
    writes (trace s') = writes (trace s).
Proof.
  intros Hmemo Hv Hd Hnames Hp.
  destruct (load_current_loads_cached E s v d Hv Hd)
    as (name & d' & Hload & Hfile & Hm & Hint & Hle).
  destruct (Hnames name Hm) as (j & Hj & Hlen & ->); [by eexists|done|].
  apply root_fname_le in Hle; [|lia..|done].
  assert (j = v) as -> by lia.
  assert (d' = d) as -> by congruence.
  assert (exists w, version_of d = Some w) as [w Hw].
  { unfold probe_failure in Hp. destruct (version_of d); [by eexists|done]. }
  assert (is_Some (av_dir s)) as Hdir.
  { unfold lookup_file in Hd. destruct (av_dir s); [by eexists|done]. }
  eexists. split.
  - apply (trusted_root_chain E s
             (emit (EvLoad (root_fname v))
                (log Info (loading_msg (root_fname v)) (emit EvGlob s)))
             d w e [] (S fuel)); try done.
    + cbn [List.last List.length]. by rewrite Nat.add_0_r.
    + cbn [List.length]. lia.
  - cbn [List.length persist requests av_dir trace set_memo_trusted_root].
    destruct (refresh_stop_frame e
      (after_fetch (root_fname (w + Z.of_nat 0 + 1))
         (emit (EvLoad (root_fname v))
            (log Info (loading_msg (root_fname v)) (emit EvGlob s)))))
      as (-> & -> & -> & _).
    split; [done|]. split; [done|].
    cbn [trace after_fetch emit log count_request]. rewrite !writes_app. cbn [writes].
    by rewrite !app_nil_r.
Qed.

(** Root 2 is cached and the server has nothing newer. *)
Lemma trusted_root_over_complete_cache_witness :
  exists s',
    trusted_root
      (mkEnv true (Some "https://repo.example/sigs") true (root_doc 1 true)
         "key_mgr.json" (fun _ _ => HttpResponse 404 None)
         demo_verify_root demo_verify_delegation demo_wrap_as_signable)
      1 (fresh (Some {["2.root.json" := root_doc 2 true]}))
    = Return (root_doc 2 true) s' /\
    requests s' = 1%nat.
Proof.
  destruct (trusted_root_over_complete_cache
      (mkEnv true (Some "https://repo.example/sigs") true (root_doc 1 true)
         "key_mgr.json" (fun _ _ => HttpResponse 404 None)
         demo_verify_root demo_verify_delegation demo_wrap_as_signable)
      0 (fresh (Some {["2.root.json" := root_doc 2 true]})) 2 (root_doc 2 true)
      (HTTPError 404)) as (s' & Hret & Hreq & _).
  - reflexivity.
  - lia.
  - reflexivity.
  - intros name Hm [d Hd] _. unfold lookup_file, fresh in Hd. cbn [av_dir] in Hd.
    apply lookup_singleton_Some in Hd as [<- _]. exists 2. by repeat split.
  - reflexivity.
  - exists s'. split; [exact Hret|exact Hreq].
Defined.

(** ** The refresh has no bound of its own *)

(** X14. The loop follows the server for as long as each next root is
    served and verifies: when that holds along the whole walk (an invariant
    of the trusted document and the request count), no amount of fuel lets
    the refresh end. *)
Theorem refresh_follows_an_endless_chain E (Inv : json -> nat -> Prop) :
  (forall d n, Inv d n ->
     exists v u, version_of d = Some v /\
                 fetched E n (root_fname (v + 1)) = Ok u /\
                 verify_root E d u = None /\ Inv u (S n)) ->
  forall fuel d s,
    Inv d (requests s) -> is_Some (av_dir s) ->
    refresh E fuel d s = OutOfFuel.
Proof.
  intros Hstep. induction fuel as [|fuel IH]; intros d s Hinv Hdir; [done|].
  destruct (Hstep _ _ Hinv) as (v & u & Hv & Hf & Hver & Hinv').
  cbn [refresh]. rewrite (next_version_of _ _ Hv), fetch_unfold, Hf, Hver.
  assert (is_Some (av_dir (after_fetch (root_fname (v + 1)) s))) as Hdir' by done.
  rewrite write_Some by done. apply IH.
  - by rewrite after_write_requests.
  - by apply after_write_is_Some.
Qed.

(** A server that answers its n-th request with a signed root of version
    n + 2: from root 1, it is never done. *)
Lemma refresh_follows_an_endless_chain_witness :
  refresh
    (mkEnv true (Some "https://repo.example/sigs") true (root_doc 1 true)
       "key_mgr.json"
       (fun n _ => HttpResponse 200 (Some (root_doc (Z.of_nat n + 2) true)))
       demo_verify_root demo_verify_delegation demo_wrap_as_signable)
    1000 (root_doc 1 true) (fresh (Some ∅)) = OutOfFuel.
Proof.
  apply (refresh_follows_an_endless_chain _
           (fun d n => d = root_doc (Z.of_nat n + 1) true)).
  - intros d n ->. exists (Z.of_nat n + 1), (root_doc (Z.of_nat n + 2) true).
    split; [reflexivity|]. split; [|split].
    + unfold fetched. cbn. reflexivity.
    + unfold demo_verify_root. cbn.
      rewrite (proj2 (Z.eqb_eq _ _)) by lia. reflexivity.
    + f_equal. lia.
  - reflexivity.
  - by eexists.
Defined.

(** ** Callers of the memoized properties *)

(** [lru_cache] works in two steps and holds no lock between them: it looks
    the cell up, and on a miss it calls the body and stores what the body
    returns.  These are the second step of [trusted_root] and of [key_mgr]:
    what a caller whose lookup missed goes on to do, whatever other callers
    have done to the cell since. *)
Definition trusted_root_after_miss (E : env) (fuel : nat) (s : state) : outcome json :=
  match trusted_root_body E fuel s with
  | Return d s' => Return d (set_memo_trusted_root d s')
  | o => o
  end.

Definition key_mgr_after_miss (E : env) (fuel : nat) (s : state) : outcome json :=
  match key_mgr_body E fuel s with
  | Return d s' => Return d (set_memo_key_mgr d s')
  | o => o
  end.

(** A caller that nobody interrupts does the two steps in a row. *)
Lemma trusted_root_two_steps E fuel s :
  trusted_root E fuel s =
    match memo_trusted_root s with
    | Some d => Return d s
    | None => trusted_root_after_miss E fuel s
    end.
Proof. reflexivity. Qed.

Lemma key_mgr_two_steps E fuel s :
  key_mgr E fuel s =
    match memo_key_mgr s with
    | Some d => Return d s
    | None => key_mgr_after_miss E fuel s
    end.
Proof. reflexivity. Qed.

















